(** * PCTD_detection: trace decoder and activity-anomaly scorer

    A shallow embedding of the two analysis modules of the repository,

    - [Scripts/extract_transitions.py] (class [VCDAnalyzer]): the streaming
      decoder of the value-change dump and its corpus statistics, and
    - [Scripts/PCTD_improved.py] (class [PCTDDetector]): the percentile
      threshold, the register classifier and the candidate ranking,

    together with the properties of the specification that concern them.

    Conventions of the embedding.
    - Text is ASCII: a Python [str] is a Rocq [string]; the whitespace class
      of [str.strip] and [str.split] is the ASCII part of Python's.
    - Python dictionaries that are only looked up and updated
      ([signals], [transitions], [signal_values]) are [gmap]s; the
      dictionary the scorer iterates over ([transition_data]) keeps its
      insertion order and is a list of items.
    - Python numbers of the scorer (integers and finite floats read from
      JSON, and the floats computed from them) are rationals with exact
      arithmetic; [int] counters of the decoder are [Z]. A float
      operation rounds its exact result, so a property that rounding can
      change is stated for integer counts up to [2^53], where the values
      that are compared are floats without rounding; [PCTDFloat] has the
      lines of the scorer that divide on binary64 values.
    - Code that can raise is in the [result] monad; [print] and the
      files that are written are not modelled. *)

From Stdlib Require Import ZArith QArith Qround Lia List Bool Ascii String.
From Stdlib Require Import Sorted Permutation Lqa DecimalString.
From Stdlib Require Import Floats Uint63.
From stdpp Require Import base gmap strings list fin_maps.

Local Open Scope Z_scope.
Local Open Scope string_scope.

(** ** Python built-ins on strings *)

Module Py.

(** [str.isspace] on ASCII: TAB, LF, VT, FF, CR, the separators
    0x1c..0x1f and the space. *)
Definition is_space (c : ascii) : bool :=
  let n := nat_of_ascii c in
  ((9 <=? n)%nat && (n <=? 13)%nat) || ((28 <=? n)%nat && (n <=? 32)%nat).

Definition is_digit (c : ascii) : bool :=
  let n := nat_of_ascii c in (48 <=? n)%nat && (n <=? 57)%nat.

Definition is_alpha (c : ascii) : bool :=
  let n := nat_of_ascii c in
  ((65 <=? n)%nat && (n <=? 90)%nat) || ((97 <=? n)%nat && (n <=? 122)%nat).

(** [c.lower()] on ASCII. *)
Definition lower (c : ascii) : ascii :=
  let n := nat_of_ascii c in
  if (65 <=? n)%nat && (n <=? 90)%nat then ascii_of_nat (n + 32) else c.

Definition nonempty (s : string) : bool :=
  match s with EmptyString => false | String _ _ => true end.

Fixpoint lstrip_of (space : ascii -> bool) (s : string) : string :=
  match s with
  | EmptyString => EmptyString
  | String c s' => if space c then lstrip_of space s' else s
  end.

Fixpoint rstrip_of (space : ascii -> bool) (s : string) : string :=
  match s with
  | EmptyString => EmptyString
  | String c s' =>
      let r := rstrip_of space s' in
      if space c && negb (nonempty r) then EmptyString else String c r
  end.

(** [s.strip()] *)
Definition strip (s : string) : string :=
  rstrip_of is_space (lstrip_of is_space s).

(** [s.split()]: the maximal runs of non-whitespace characters. [tok] is
    the run being read. *)
Fixpoint split_from (tok s : string) : list string :=
  match s with
  | EmptyString => if nonempty tok then [tok] else []
  | String c s' =>
      if is_space c
      then (if nonempty tok then tok :: split_from EmptyString s'
            else split_from EmptyString s')
      else split_from (tok ++ String c EmptyString) s'
  end.

Definition split (s : string) : list string := split_from EmptyString s.

(** [s.startswith(p)] *)
Definition startswith (s p : string) : bool := String.prefix p s.

(** [x in s] on strings: [x] occurs in [s] as a substring. *)
Fixpoint contains (s x : string) : bool :=
  String.prefix x s ||
  match s with
  | EmptyString => false
  | String _ s' => contains s' x
  end.

(** [c in s] for a character [c]. *)
Definition char_in (c : ascii) (s : string) : bool :=
  contains s (String c EmptyString).

(** [s[1:]] *)
Definition tail (s : string) : string :=
  match s with EmptyString => EmptyString | String _ s' => s' end.

(** [int(s)] in base 10: surrounding whitespace (of the C locale: TAB to
    CR and the space), one optional sign, then digits, where single
    underscores may separate digits. [None] stands for the [ValueError]. *)
Definition is_c_space (c : ascii) : bool :=
  let n := nat_of_ascii c in
  ((9 <=? n)%nat && (n <=? 13)%nat) || (n =? 32)%nat.

Inductive int_seen := AtStart | AfterDigit | AfterUnderscore.

Fixpoint int_digits (seen : int_seen) (acc : Z) (s : string) : option Z :=
  match s with
  | EmptyString =>
      match seen with AfterDigit => Some acc | _ => None end
  | String c s' =>
      if is_digit c
      then int_digits AfterDigit (10 * acc + Z.of_nat (nat_of_ascii c - 48)) s'
      else if Ascii.eqb c "_"
      then match seen with
           | AfterDigit => int_digits AfterUnderscore acc s'
           | _ => None
           end
      else None
  end.

Definition int (s : string) : option Z :=
  match rstrip_of is_c_space (lstrip_of is_c_space s) with
  | String "+" d => int_digits AtStart 0 d
  | String "-" d => option_map Z.opp (int_digits AtStart 0 d)
  | d => int_digits AtStart 0 d
  end.

End Py.

(** ** The trace decoder ([extract_transitions.py]) *)

Module VCD.

(** The dictionary stored in [self.signals[var_id]]. *)
Record signal := Signal {
  name : string;
  type : string;
  size : string;
  last_value : option string
}.

Definition set_last_value (sg : signal) (v : string) : signal :=
  {| name := name sg; type := type sg; size := size sg; last_value := Some v |}.

(** The fields of a [VCDAnalyzer] that [parse_vcd] reads and writes.
    [transitions] is a [defaultdict(int)] and [signal_values] a
    [defaultdict(list)]: a key is present once it has been written. *)
Record VCDAnalyzer := Analyzer {
  signals : gmap string signal;
  transitions : gmap string Z;
  signal_values : gmap string (list (Z * string));
  timescale : string;
  simulation_time : Z
}.

(** [VCDAnalyzer.__init__] *)
Definition init : VCDAnalyzer :=
  {| signals := ∅; transitions := ∅; signal_values := ∅;
     timescale := "1ns"; simulation_time := 0 |}.

(** The analyzer together with the local variables of the loop of
    [parse_vcd]. *)
Record loop_state := Loop {
  self : VCDAnalyzer;
  in_dump_section : bool;
  current_time : Z
}.

Definition with_self (st : loop_state) (a : VCDAnalyzer) : loop_state :=
  {| self := a; in_dump_section := in_dump_section st;
     current_time := current_time st |}.

(** [self.transitions[signal_name] += 1] *)
Definition increment (tr : gmap string Z) (n : string) : gmap string Z :=
  <[n := default 0 (tr !! n) + 1]> tr.

(** [self.signal_values[signal_name].append((current_time, value))] *)
Definition append_value (sv : gmap string (list (Z * string)))
    (n : string) (t : Z) (v : string) : gmap string (list (Z * string)) :=
  <[n := (default [] (sv !! n) ++ [(t, v)])%list]> sv.

(** [last_value is not None and last_value != value] *)
Definition changed (last : option string) (value : string) : bool :=
  match last with
  | None => false
  | Some lv => negb (String.eqb lv value)
  end.

(** [value in '01' and last_value in '01'] (inner test of the scalar
    branch, reached when [last_value] is not [None]). *)
Definition both_binary (last : option string) (value : string) : bool :=
  match last with
  | None => false
  | Some lv => Py.contains "01" value && Py.contains "01" lv
  end.

(** Lines 91-103: a single-bit change [value] on [signal_id]. *)
Definition scalar_change (st : loop_state) (value signal_id : string)
  : loop_state :=
  let a := self st in
  match signals a !! signal_id with
  | None => st
  | Some sg =>
      let signal_name := name sg in
      let tr :=
        if changed (last_value sg) value && both_binary (last_value sg) value
        then increment (transitions a) signal_name
        else transitions a in
      with_self st
        {| signals := <[signal_id := set_last_value sg value]> (signals a);
           transitions := tr;
           signal_values :=
             append_value (signal_values a) signal_name (current_time st) value;
           timescale := timescale a;
           simulation_time := simulation_time a |}
  end.

(** Lines 107-120 and 124-136: a bus or real change; [keep] tells whether
    the branch appends to [signal_values] (the bus branch does, the real
    branch does not). *)
Definition word_change (keep : bool) (st : loop_state) (line : string)
  : loop_state :=
  let a := self st in
  match Py.split line with
  | p0 :: signal_id :: _ =>
      let value := Py.tail p0 in
      match signals a !! signal_id with
      | None => st
      | Some sg =>
          let signal_name := name sg in
          let tr :=
            if changed (last_value sg) value
            then increment (transitions a) signal_name
            else transitions a in
          with_self st
            {| signals := <[signal_id := set_last_value sg value]> (signals a);
               transitions := tr;
               signal_values :=
                 if keep
                 then append_value (signal_values a) signal_name
                        (current_time st) value
                 else signal_values a;
               timescale := timescale a;
               simulation_time := simulation_time a |}
      end
  | _ => st
  end.

Definition vector_change := word_change true.
Definition real_change := word_change false.

(** Lines 88-137: a value-change line inside the dump section. *)
Definition value_change (st : loop_state) (line : string) : loop_state :=
  match line with
  | String c0 ((String _ _) as signal_id) =>
      if Py.char_in c0 "01xzXZ"
      then scalar_change st (String c0 EmptyString) signal_id
      else if Py.startswith line "b" then vector_change st line
      else if Py.startswith line "r" then real_change st line
      else st
  | _ =>
      if Py.startswith line "b" then vector_change st line
      else if Py.startswith line "r" then real_change st line
      else st
  end.

(** Lines 46-52. With fewer than two tokens the line is the single token
    that starts with [$timescale], and [re.search(r'(\d+\s*[a-z]+)', line,
    re.IGNORECASE)] finds the first run of digits that a letter follows,
    with all the letters after it. *)
Fixpoint take_while (p : ascii -> bool) (s : string) : string :=
  match s with
  | String c s' => if p c then String c (take_while p s') else EmptyString
  | EmptyString => EmptyString
  end.

Fixpoint drop_while (p : ascii -> bool) (s : string) : string :=
  match s with
  | String c s' => if p c then drop_while p s' else s
  | EmptyString => EmptyString
  end.

Fixpoint search_unit (prev_digit : bool) (s : string) : option string :=
  match s with
  | EmptyString => None
  | String c s' =>
      if Py.is_digit c && negb prev_digit
      then
        let ds := take_while Py.is_digit s in
        let after := drop_while Py.is_digit s in
        let ws := take_while Py.is_space after in
        let ls := take_while Py.is_alpha (drop_while Py.is_space after) in
        if Py.nonempty ls then Some (ds ++ ws ++ ls)
        else search_unit true s'
      else search_unit (Py.is_digit c) s'
  end.

Definition parse_timescale (a : VCDAnalyzer) (line : string) : VCDAnalyzer :=
  let ts :=
    match Py.split line with
    | _ :: p1 :: _ => p1
    | _ => match search_unit false line with
           | Some m => m
           | None => timescale a
           end
    end in
  {| signals := signals a; transitions := transitions a;
     signal_values := signal_values a; timescale := ts;
     simulation_time := simulation_time a |}.

(** Lines 61-73. *)
Definition parse_var (a : VCDAnalyzer) (line : string) : VCDAnalyzer :=
  match Py.split line with
  | _ :: var_type :: var_size :: var_id :: var_name :: _ =>
      {| signals :=
           <[var_id := {| name := var_name; type := var_type;
                          size := var_size; last_value := None |}]> (signals a);
         transitions := transitions a;
         signal_values := signal_values a;
         timescale := timescale a;
         simulation_time := simulation_time a |}
  | _ => a
  end.

(** Lines 79-84: when [int] raises, the handler prints a warning and the
    two assignments after it are not run. *)
Definition parse_timestamp (st : loop_state) (line : string) : loop_state :=
  match Py.int (Py.tail line) with
  | Some t =>
      let a := self st in
      {| self := {| signals := signals a; transitions := transitions a;
                    signal_values := signal_values a; timescale := timescale a;
                    simulation_time := Z.max (simulation_time a) t |};
         in_dump_section := true;
         current_time := t |}
  | None => st
  end.

(** The body of the loop of [parse_vcd] (lines 36-140) on one line of
    the file. *)
Definition parse_line (st : loop_state) (raw : string) : loop_state :=
  let line := Py.strip raw in
  if negb (Py.nonempty line) then st
  else if Py.startswith line "$timescale"
  then with_self st (parse_timescale (self st) line)
  else if Py.startswith line "$var"
  then with_self st (parse_var (self st) line)
  else if Py.startswith line "#" then parse_timestamp st line
  else if in_dump_section st && negb (Py.startswith line "$")
  then value_change st line
  else st.

Definition parse_lines (st : loop_state) (lines : list string) : loop_state :=
  fold_left parse_line lines st.

(** [parse_vcd] on the lines read from the file, from a new analyzer. *)
Definition start (a : VCDAnalyzer) : loop_state :=
  {| self := a; in_dump_section := false; current_time := 0 |}.

Definition parse_vcd (lines : list string) : VCDAnalyzer :=
  self (parse_lines (start init) lines).

End VCD.

(** *** Corpus statistics of [generate_report] *)

Module Report.

Import VCD.

(** [self.timescale.lower()] *)
Fixpoint lower_string (s : string) : string :=
  match s with
  | EmptyString => EmptyString
  | String c s' => String (Py.lower c) (lower_string s')
  end.

(** Lines 151-161: nanoseconds per time unit. *)
Definition time_multiplier (a : VCDAnalyzer) : Q :=
  let timescale_lower := lower_string (timescale a) in
  if Py.contains timescale_lower "ns" then 1%Q
  else if Py.contains timescale_lower "us" then 1000%Q
  else if Py.contains timescale_lower "ms" then 1000000%Q
  else if Py.contains timescale_lower "ps" then (1 # 1000)%Q
  else 1%Q.

Definition Qlt_bool (x y : Q) : bool := negb (Qle_bool y x).

(** [calculate_frequencies]: one entry per key of [self.transitions]. *)
Definition calculate_frequencies (a : VCDAnalyzer) : gmap string Q :=
  let time_ns := (inject_Z (simulation_time a) * time_multiplier a)%Q in
  (fun count : Z =>
     if Qlt_bool 0 time_ns then (inject_Z count / time_ns)%Q else 0%Q)
  <$> transitions a.

(** [min(l) if l else 0], [max(l) if l else 0] and
    [sum(l) / len(l) if l else 0]. *)
Definition min_or_0 (l : list Z) : Z :=
  match l with [] => 0 | x :: l' => fold_left Z.min l' x end.

Definition max_or_0 (l : list Z) : Z :=
  match l with [] => 0 | x :: l' => fold_left Z.max l' x end.

Definition sum (l : list Z) : Z := fold_left Z.add l 0.

Definition avg_or_0 (l : list Z) : Q :=
  match l with
  | [] => 0%Q
  | _ => (inject_Z (sum l) / inject_Z (Z.of_nat (length l)))%Q
  end.

(** The entries of [stats] about transition counts (lines 218-220). *)
Record count_stats := CountStats {
  min_trans : Z;
  max_trans : Z;
  avg_trans : Q
}.

Definition stats_of (counts : list Z) : count_stats :=
  {| min_trans := min_or_0 counts;
     max_trans := max_or_0 counts;
     avg_trans := avg_or_0 counts |}.

(** [list(self.transitions.values())] (line 210). *)
Definition trans_counts (a : VCDAnalyzer) : list Z :=
  (map_to_list (transitions a)).*2.

(** Lines 202-221 of [generate_report]: no statistics when
    [frequencies] is empty, else the aggregates of [trans_counts]. *)
Definition generate_report_stats (a : VCDAnalyzer) : option count_stats :=
  if decide (calculate_frequencies a = ∅) then None
  else Some (stats_of (trans_counts a)).

(** The count of every declared signal, [0] for one without an entry in
    [self.transitions]: the collection the specification takes the
    aggregates over. *)
Definition declared_counts (a : VCDAnalyzer) : list Z :=
  (fun sg => default 0 (transitions a !! name sg))
  <$> (map_to_list (signals a)).*2.

End Report.

(** ** The anomaly scorer ([PCTD_improved.py]) *)

Module PCTD.

(** *** Exceptions *)

Inductive py_error := IndexError | ZeroDivisionError | AttributeError.

Inductive result (A : Type) : Type :=
| Ok (a : A)
| Raise (e : py_error).
Arguments Ok {A} a.
Arguments Raise {A} e.

#[global] Instance result_ret : MRet result := fun A a => Ok a.

#[global] Instance result_bind : MBind result := fun A B k r =>
  match r with
  | Ok a => k a
  | Raise e => Raise e
  end.

(** *** [sorted] and [list.sort]: the stable sort, by insertion *)

Section StableSort.
Context {A : Type} (le : A -> A -> bool).

Fixpoint insert (x : A) (l : list A) : list A :=
  match l with
  | [] => [x]
  | y :: l' => if le x y then x :: l else y :: insert x l'
  end.

Fixpoint sort (l : list A) : list A :=
  match l with
  | [] => []
  | x :: l' => insert x (sort l')
  end.

End StableSort.

(** [sorted(l, key=key)] and [l.sort(key=key, reverse=True)]. *)
Definition sort_by {A} (key : A -> Q) : list A -> list A :=
  sort (fun x y => Qle_bool (key x) (key y)).

Definition sort_by_reverse {A} (key : A -> Q) : list A -> list A :=
  sort (fun x y => Qle_bool (key y) (key x)).

(** *** [re.match(pattern, s, re.IGNORECASE)] for the patterns in use *)

Inductive char_class :=
| AnyChar                (* .   any character but the newline *)
| Chr (c : ascii)        (* a literal, letters in either case *)
| Digit.                 (* \d *)

Inductive atom :=
| One (c : char_class)
| Opt (c : char_class)   (* c? *)
| Star (c : char_class)  (* c* *)
| EndOfString.           (* $ *)

Definition class_match (k : char_class) (c : ascii) : bool :=
  match k with
  | AnyChar => negb (Ascii.eqb c "010")
  | Chr a => Ascii.eqb (Py.lower c) (Py.lower a)
  | Digit => Py.is_digit c
  end.

(** [$] matches at the end of the string and before a final newline. *)
Definition at_end (s : string) : bool :=
  match s with
  | EmptyString => true
  | String c EmptyString => Ascii.eqb c "010"
  | _ => false
  end.

(** A match of the whole pattern on a prefix of [s]. *)
Fixpoint re_match (p : list atom) (s : string) : bool :=
  match p with
  | [] => true
  | One k :: p' =>
      match s with
      | String c s' => class_match k c && re_match p' s'
      | EmptyString => false
      end
  | Opt k :: p' =>
      re_match p' s ||
      match s with
      | String c s' => class_match k c && re_match p' s'
      | EmptyString => false
      end
  | Star k :: p' =>
      (fix star (s : string) : bool :=
         re_match p' s ||
         match s with
         | String c s' => class_match k c && star s'
         | EmptyString => false
         end) s
  | EndOfString :: p' => at_end s && re_match p' s
  end.

Fixpoint lit (s : string) : list atom :=
  match s with
  | EmptyString => []
  | String c s' => One (Chr c) :: lit s'
  end.

(** The list [dff_patterns] of [analyze_trojan_candidates]. *)
Definition dff_patterns : list (list atom) :=
  [ (* .*_reg\[?\d*\]?$ *)
    Star AnyChar :: lit "_reg" ++ [Opt (Chr "["); Star Digit; Opt (Chr "]"); EndOfString];
    (* .*_q\[?\d*\]?$ *)
    Star AnyChar :: lit "_q" ++ [Opt (Chr "["); Star Digit; Opt (Chr "]"); EndOfString];
    (* .*state.* *)
    Star AnyChar :: lit "state" ++ [Star AnyChar];
    (* .*count.* *)
    Star AnyChar :: lit "count" ++ [Star AnyChar];
    (* .*shift.* *)
    Star AnyChar :: lit "shift" ++ [Star AnyChar] ]%list.

(** *** Data *)

(** A value of the table read from JSON. [isinstance(v, (int, float))]
    holds of numbers and of the booleans, which count as 1 and 0. *)
Inductive jvalue :=
| JNumber (q : Q)
| JBool (b : bool)
| JOther.

Definition number (v : jvalue) : option Q :=
  match v with
  | JNumber q => Some q
  | JBool b => Some (if b then 1%Q else 0%Q)
  | JOther => None
  end.

(** An element of [self.suspicious_signals]. *)
Record suspicious := Suspicious {
  name : string;
  transitions : Q;
  suspicion_score : Q;
  percentage_of_avg : Q
}.

Inductive risk := CRITICAL | HIGH | MEDIUM | LOW.

(** An element of [self.trojan_candidates]. *)
Record candidate := Candidate {
  signal : string;
  cand_transitions : Q;
  cand_percentage_of_avg : Q;
  trojan_probability : Q;
  risk_level : risk
}.

(** The fields of a [PCTDDetector] that the scorer uses. The statistics
    are attributes that exist only once [load_transition_data] has set
    them. *)
Record PCTDDetector := Detector {
  transition_data : list (string * jvalue);
  dff_list : list string;
  threshold_percentile : Z;
  avg_transitions : option Q;
  max_transitions : option Q;
  min_transitions : option Q;
  suspicious_signals : list suspicious;
  trojan_candidates : list candidate
}.

(** [PCTDDetector.__init__] *)
Definition init : PCTDDetector :=
  {| transition_data := []; dff_list := []; threshold_percentile := 10;
     avg_transitions := None; max_transitions := None; min_transitions := None;
     suspicious_signals := []; trojan_candidates := [] |}.

(** *** [load_transition_data], lines 49-55

    [td] is the table selected from the JSON document (the value of its
    key [transition_counts], or the document itself in the old format). *)

Definition numbers (td : list (string * jvalue)) : list Q :=
  omap (fun item => number item.2) td.

Definition Qsum (l : list Q) : Q := fold_left Qplus l 0%Q.

Definition Qmin_list (x : Q) (l : list Q) : Q :=
  fold_left (fun m y => if Qle_bool m y then m else y) l x.

Definition Qmax_list (x : Q) (l : list Q) : Q :=
  fold_left (fun m y => if Qle_bool y m then m else y) l x.

Definition load_transition_data (td : list (string * jvalue))
    (d : PCTDDetector) : PCTDDetector :=
  match numbers td with
  | [] =>
      {| transition_data := td; dff_list := dff_list d;
         threshold_percentile := threshold_percentile d;
         avg_transitions := avg_transitions d;
         max_transitions := max_transitions d;
         min_transitions := min_transitions d;
         suspicious_signals := suspicious_signals d;
         trojan_candidates := trojan_candidates d |}
  | (x :: rest) as counts =>
      {| transition_data := td; dff_list := dff_list d;
         threshold_percentile := threshold_percentile d;
         avg_transitions :=
           Some (Qsum counts / inject_Z (Z.of_nat (length counts)))%Q;
         max_transitions := Some (Qmax_list x rest);
         min_transitions := Some (Qmin_list x rest);
         suspicious_signals := suspicious_signals d;
         trojan_candidates := trojan_candidates d |}
  end.

(** The outcome of [parse_verilog] that the scorer uses: the hint set. *)
Definition with_dff_list (dffs : list string) (d : PCTDDetector)
  : PCTDDetector :=
  {| transition_data := transition_data d; dff_list := dffs;
     threshold_percentile := threshold_percentile d;
     avg_transitions := avg_transitions d;
     max_transitions := max_transitions d;
     min_transitions := min_transitions d;
     suspicious_signals := suspicious_signals d;
     trojan_candidates := trojan_candidates d |}.

(** [detector.threshold_percentile = p] *)
Definition with_threshold_percentile (p : Z) (d : PCTDDetector)
  : PCTDDetector :=
  {| transition_data := transition_data d; dff_list := dff_list d;
     threshold_percentile := p;
     avg_transitions := avg_transitions d;
     max_transitions := max_transitions d;
     min_transitions := min_transitions d;
     suspicious_signals := suspicious_signals d;
     trojan_candidates := trojan_candidates d |}.

Definition with_suspicious_signals (l : list suspicious) (d : PCTDDetector)
  : PCTDDetector :=
  {| transition_data := transition_data d; dff_list := dff_list d;
     threshold_percentile := threshold_percentile d;
     avg_transitions := avg_transitions d;
     max_transitions := max_transitions d;
     min_transitions := min_transitions d;
     suspicious_signals := l;
     trojan_candidates := trojan_candidates d |}.

Definition with_trojan_candidates (l : list candidate) (d : PCTDDetector)
  : PCTDDetector :=
  {| transition_data := transition_data d; dff_list := dff_list d;
     threshold_percentile := threshold_percentile d;
     avg_transitions := avg_transitions d;
     max_transitions := max_transitions d;
     min_transitions := min_transitions d;
     suspicious_signals := suspicious_signals d;
     trojan_candidates := l |}.

(** *** [identify_suspicious_signals] *)

Definition Qlt_bool (x y : Q) : bool := negb (Qle_bool y x).

(** Line 120: the numeric values that are positive. *)
Definition positive_counts (td : list (string * jvalue)) : list Q :=
  List.filter (fun v => Qlt_bool 0 v) (numbers td).

(** Line 126: [max(0, int(len(counts_sorted) * self.threshold_percentile
    / 100))]; [int] truncates the quotient towards zero. *)
Definition threshold_index (n : nat) (percentile : Z) : Z :=
  Z.max 0 (Z.quot (Z.of_nat n * percentile) 100).

(** Line 127: [counts_sorted[threshold_index]], the index being
    non-negative. *)
Definition index (l : list Q) (i : Z) : result Q :=
  match nth_error l (Z.to_nat i) with
  | Some x => Ok x
  | None => Raise IndexError
  end.

(** Line 134: the test of the loop on one item. *)
Definition below_threshold (threshold : Q) (v : jvalue) : option Q :=
  match number v with
  | Some count =>
      if Qlt_bool count threshold && Qlt_bool 0 count then Some count else None
  | None => None
  end.

(** Lines 135-141: the record appended for a suspicious signal. The
    division of line 135 raises when the average is zero. *)
Definition suspect (avg : Q) (signal : string) (count : Q) : result suspicious :=
  if Qeq_bool avg 0 then Raise ZeroDivisionError
  else Ok {| name := signal;
             transitions := count;
             suspicion_score := (1 - count / avg)%Q;
             percentage_of_avg :=
               if Qlt_bool 0 avg then (count / avg * 100)%Q else 0%Q |}.

(** Lines 133-141: the loop, appending to [acc]. *)
Fixpoint find_suspicious (threshold avg : Q) (items : list (string * jvalue))
    (acc : list suspicious) : result (list suspicious) :=
  match items with
  | [] => Ok acc
  | (signal, v) :: rest =>
      match below_threshold threshold v with
      | Some count =>
          s ← suspect avg signal count;
          find_suspicious threshold avg rest (acc ++ [s])%list
      | None => find_suspicious threshold avg rest acc
      end
  end.

(** [self.avg_transitions], read at lines 130, 135 and 140. *)
Definition get_avg_transitions (d : PCTDDetector) : result Q :=
  match avg_transitions d with
  | Some avg => Ok avg
  | None => Raise AttributeError
  end.

Definition identify_suspicious_signals (d : PCTDDetector)
  : result PCTDDetector :=
  match transition_data d with
  | [] => Ok d
  | _ =>
      match positive_counts (transition_data d) with
      | [] => Ok d
      | counts =>
          let counts_sorted := sort_by id counts in
          let threshold_index :=
            threshold_index (length counts_sorted) (threshold_percentile d) in
          threshold ← index counts_sorted threshold_index;
          avg ← get_avg_transitions d;
          found ← find_suspicious threshold avg (transition_data d)
                    (suspicious_signals d);
          Ok (with_suspicious_signals (sort_by transitions found) d)
      end
  end.

(** *** [analyze_trojan_candidates] *)

(** Lines 165-168: the loop over the hint set, left at the first hit. *)
Fixpoint in_dff_list (dffs : list string) (signal_name : string) : bool :=
  match dffs with
  | [] => false
  | dff :: rest =>
      if Py.contains signal_name dff || Py.contains dff signal_name
      then true
      else in_dff_list rest signal_name
  end.

(** Lines 180-183: the loop over the patterns, left at the first match. *)
Fixpoint matches_pattern (patterns : list (list atom)) (signal_name : string)
  : bool :=
  match patterns with
  | [] => false
  | pattern :: rest =>
      if re_match pattern signal_name then true
      else matches_pattern rest signal_name
  end.

(** Lines 162-183. *)
Definition is_dff (dffs : list string) (signal_name : string) : bool :=
  let is_dff := in_dff_list dffs signal_name in
  if negb is_dff then matches_pattern dff_patterns signal_name else is_dff.

(** Lines 190-197. *)
Definition risk_of (percentage_of_avg : Q) : risk :=
  if Qlt_bool percentage_of_avg 5 then CRITICAL
  else if Qlt_bool percentage_of_avg 10 then HIGH
  else if Qlt_bool percentage_of_avg 20 then MEDIUM
  else LOW.

(** Lines 186-205. *)
Definition make_candidate (sus_sig : suspicious) : candidate :=
  {| signal := name sus_sig;
     cand_transitions := transitions sus_sig;
     cand_percentage_of_avg := percentage_of_avg sus_sig;
     trojan_probability := (suspicion_score sus_sig * 100)%Q;
     risk_level := risk_of (percentage_of_avg sus_sig) |}.

(** Lines 158-205: the loop, appending to [acc]. *)
Fixpoint collect_candidates (dffs : list string) (sus : list suspicious)
    (acc : list candidate) : list candidate :=
  match sus with
  | [] => acc
  | sus_sig :: rest =>
      if is_dff dffs (name sus_sig)
      then collect_candidates dffs rest (acc ++ [make_candidate sus_sig])%list
      else collect_candidates dffs rest acc
  end.

Definition analyze_trojan_candidates (d : PCTDDetector) : PCTDDetector :=
  let appended :=
    collect_candidates (dff_list d) (suspicious_signals d) (trojan_candidates d) in
  with_trojan_candidates (sort_by_reverse trojan_probability appended) d.

(** *** The pipeline of [run_detection], without the report *)

Definition score (d : PCTDDetector) : result PCTDDetector :=
  d' ← identify_suspicious_signals d;
  Ok (analyze_trojan_candidates d').

Definition run_detection (percentile : Z) (td : list (string * jvalue))
    (dffs : list string) : result PCTDDetector :=
  score (with_dff_list dffs
           (load_transition_data td (with_threshold_percentile percentile init))).

End PCTD.

(** ** The rest of [extract_transitions.py] *)

Module Statistics.

Import VCD Report.

(** The list [dff_patterns] of [identify_dff_signals] (lines 178-190).
    With [re.IGNORECASE] the classes [[Cc]] and [[Ss]] are the letters c
    and s in either case. *)
Definition dff_patterns : list (list PCTD.atom) :=
  [ (* .*_Q$ *)
    PCTD.Star PCTD.AnyChar :: PCTD.lit "_Q" ++ [PCTD.EndOfString];
    (* .*_q$ *)
    PCTD.Star PCTD.AnyChar :: PCTD.lit "_q" ++ [PCTD.EndOfString];
    (* .*_reg\[.*\]$ *)
    PCTD.Star PCTD.AnyChar :: PCTD.lit "_reg[" ++
      [PCTD.Star PCTD.AnyChar; PCTD.One (PCTD.Chr "]"); PCTD.EndOfString];
    (* .*_reg$ *)
    PCTD.Star PCTD.AnyChar :: PCTD.lit "_reg" ++ [PCTD.EndOfString];
    (* .*dff.* *)
    PCTD.Star PCTD.AnyChar :: PCTD.lit "dff" ++ [PCTD.Star PCTD.AnyChar];
    (* .*state.* *)
    PCTD.Star PCTD.AnyChar :: PCTD.lit "state" ++ [PCTD.Star PCTD.AnyChar];
    (* .*[Cc]ntr.* *)
    PCTD.Star PCTD.AnyChar :: PCTD.lit "Cntr" ++ [PCTD.Star PCTD.AnyChar];
    (* .*[Cc]ount.* *)
    PCTD.Star PCTD.AnyChar :: PCTD.lit "Count" ++ [PCTD.Star PCTD.AnyChar];
    (* .*[Ss]hift.* *)
    PCTD.Star PCTD.AnyChar :: PCTD.lit "Shift" ++ [PCTD.Star PCTD.AnyChar];
    (* .*_ff.* *)
    PCTD.Star PCTD.AnyChar :: PCTD.lit "_ff" ++ [PCTD.Star PCTD.AnyChar];
    (* q\[.*\]$ *)
    PCTD.lit "q[" ++
      [PCTD.Star PCTD.AnyChar; PCTD.One (PCTD.Chr "]"); PCTD.EndOfString]
  ]%list.

(** Lines 193-196: the test of the inner loop, left at the first
    pattern that matches. *)
Definition is_dff_name (signal_name : string) : bool :=
  PCTD.matches_pattern dff_patterns signal_name.

(** [identify_dff_signals]: the entries of [frequencies] whose name a
    pattern matches. *)
Definition identify_dff_signals (frequencies : gmap string Q)
  : gmap string Q :=
  filter (fun item : string * Q => is_dff_name item.1 = true) frequencies.







(** Lines 268-271 of [generate_report]: the low-activity section. The
    keys of [dff_signals] are keys of [self.transitions], so that
    [self.transitions[s]] reads an entry that exists. *)
Definition dff_names (a : VCDAnalyzer) : list string :=
  (map_to_list (identify_dff_signals (calculate_frequencies a))).*1.

Definition dff_counts (a : VCDAnalyzer) : list Z :=
  (fun s => default 0 (transitions a !! s)) <$> dff_names a.

(** [sum(dff_counts) / len(dff_counts) * 0.1] *)
Definition low_activity_threshold (a : VCDAnalyzer) : Q :=
  (inject_Z (Report.sum (dff_counts a))
   / inject_Z (Z.of_nat (length (dff_counts a))) * (1 # 10))%Q.

(** The list [suspicious] of the report; empty when there is no DFF
    signal. *)
Definition low_activity_dffs (a : VCDAnalyzer) : list (string * Z) :=
  match dff_names a with
  | [] => []
  | names =>
      List.filter
        (fun item : string * Z =>
           Qlt_bool (inject_Z item.2) (low_activity_threshold a))
        ((fun s => (s, default 0 (transitions a !! s))) <$> names)
  end.

(** The two dictionaries that [save_json] dumps. *)
Record json_data := JsonData {
  frequencies : gmap string Q;
  transition_counts : gmap string Z
}.

Definition all_data (a : VCDAnalyzer) : json_data :=
  {| frequencies := calculate_frequencies a;
     transition_counts := transitions a |}.

(** [{s: self.transitions[s] for s in dff_signals.keys()}] *)
Definition dff_data (a : VCDAnalyzer) : json_data :=
  let dff_signals := identify_dff_signals (calculate_frequencies a) in
  {| frequencies := dff_signals;
     transition_counts :=
       map_imap (fun s _ => Some (default 0 (transitions a !! s))) dff_signals |}.

End Statistics.

(** ** The rest of [PCTD_improved.py] *)

Module Pipeline.

Import PCTD.

(** *** [load_transition_data], lines 38-47: the JSON document *)

(** What [json.load] returns. An object is the list of the items of the
    dictionary, in the order of the file. *)
#[local] Unset Elimination Schemes.
Inductive json :=
| Null
| Boolean (b : bool)
| Number (q : Q)
| Text (s : string)
| Array (l : list json)
| Object (items : list (string * json)).
#[local] Set Elimination Schemes.

(** The exceptions of these lines, none of which the function catches. *)
Inductive load_error := TypeError | NoValuesAttribute.

(** [items[key]] for a key that is present. *)
Fixpoint get (key : string) (items : list (string * json)) : option json :=
  match items with
  | [] => None
  | (k, v) :: rest => if String.eqb k key then Some v else get key rest
  end.

Definition is_text (key : string) (v : json) : bool :=
  match v with Text s => String.eqb s key | _ => false end.

(** Lines 41-45: ['transition_counts' in data] is a key test on an
    object, an element test on an array and a substring test on a
    string, and raises on the other values; [data['transition_counts']]
    raises unless [data] is an object. *)
Definition select (data : json) : json + load_error :=
  match data with
  | Object items =>
      match get "transition_counts" items with
      | Some v => inl v
      | None => inl data
      end
  | Array l =>
      if existsb (is_text "transition_counts") l then inr TypeError
      else inl data
  | Text s =>
      if Py.contains s "transition_counts" then inr TypeError else inl data
  | _ => inr TypeError
  end.

Definition to_jvalue (v : json) : jvalue :=
  match v with
  | Number q => JNumber q
  | Boolean b => JBool b
  | _ => JOther
  end.

(** Lines 47-51: [len(self.transition_data)] raises on a value without
    length; when the value is not empty, [.values()] raises unless it is
    a dictionary. An empty array or string is used afterwards as an
    empty table. *)
Definition as_table (v : json) : list (string * jvalue) + load_error :=
  match v with
  | Object items => inl (map (fun item => (item.1, to_jvalue item.2)) items)
  | Array [] => inl []
  | Array (_ :: _) => inr NoValuesAttribute
  | Text EmptyString => inl []
  | Text (String _ _) => inr NoValuesAttribute
  | _ => inr TypeError
  end.

(** Lines 38-55 on the parsed document. *)
Definition load_document (data : json) (d : PCTDDetector)
  : PCTDDetector + load_error :=
  match select data with
  | inl v =>
      match as_table v with
      | inl td => inl (load_transition_data td d)
      | inr e => inr e
      end
  | inr e => inr e
  end.

(** *** [parse_verilog], lines 100-107

    [assigned_signals] is the list of pairs of groups that [re.findall]
    returns for a block. *)

(** [sig_tuple[0] or sig_tuple[1]] *)
Definition first_group (sig_tuple : string * string) : string :=
  if Py.nonempty sig_tuple.1 then sig_tuple.1 else sig_tuple.2.

(** [sig in self.dff_list] *)
Definition listed (sig : string) (l : list string) : bool :=
  existsb (String.eqb sig) l.

Fixpoint add_assigned (assigned_signals : list (string * string))
    (dff_list : list string) : list string :=
  match assigned_signals with
  | [] => dff_list
  | sig_tuple :: rest =>
      let sig := first_group sig_tuple in
      if Py.nonempty sig && negb (listed sig dff_list)
      then add_assigned rest (dff_list ++ [sig])%list
      else add_assigned rest dff_list
  end.

Definition add_blocks (dff_blocks : list (list (string * string)))
    (dff_list : list string) : list string :=
  fold_left (fun acc block => add_assigned block acc) dff_blocks dff_list.

(** *** [generate_report]

    The data that the report shows, not its text: the summary, the rows
    of the candidate table (none when the report says that no candidate
    was detected), the critical findings and the suspects of the console
    summary. Reading [self.avg_transitions] (line 231) raises when the
    attribute was never set. *)
Record report := Report {
  total_analyzed : nat;
  suspicious_found : nat;
  candidates_found : nat;
  average : Q;
  rows : list candidate;
  critical : list candidate;
  top_suspects : list candidate
}.

Definition is_critical (c : candidate) : bool :=
  match risk_level c with CRITICAL => true | _ => false end.

Definition generate_report (d : PCTDDetector) : result report :=
  avg ← get_avg_transitions d;
  Ok {| total_analyzed := length (transition_data d);
        suspicious_found := length (suspicious_signals d);
        candidates_found := length (trojan_candidates d);
        average := avg;
        rows := trojan_candidates d;
        critical := List.filter is_critical (trojan_candidates d);
        top_suspects := take 5 (trojan_candidates d) |}.

(** [run_detection] with its last step. *)
Definition run_detection_and_report (percentile : Z)
    (td : list (string * jvalue)) (dffs : list string)
  : result (PCTDDetector * report) :=
  d ← run_detection percentile td dffs;
  r ← generate_report d;
  Ok (d, r).

End Pipeline.

(** ** The scorer on a table of floats

    The old format of the JSON document is a table of frequencies, which
    [json.load] reads as binary64 floats. This module has line 53 of
    [load_transition_data] and lines 115-144 of
    [identify_suspicious_signals] on such a table, every operation with
    its rounding to the nearest float, ties to even. *)

Module PCTDFloat.

Import PCTD.

(** An element of [self.suspicious_signals]. *)
Record suspicious := Suspicious {
  name : string;
  transitions : float;
  suspicion_score : float;
  percentage_of_avg : float
}.

(** The length of a list as a float, in a division by [len(counts)]. *)
Definition of_nat (n : nat) : float :=
  PrimFloat.of_uint63 (Uint63.of_Z (Z.of_nat n)).

(** Line 53: [sum(counts) / len(counts)]. [sum] starts from [0] and adds
    from left to right (newer interpreters carry a compensation term for
    the rounding errors, which is zero when every partial sum is
    exact). *)
Definition average (counts : list float) : float :=
  PrimFloat.div (fold_left PrimFloat.add counts 0%float)
                (of_nat (length counts)).

(** Line 120. *)
Definition positive_counts (td : list (string * float)) : list float :=
  List.filter (fun v => PrimFloat.ltb 0%float v) (map snd td).

(** Line 127. *)
Definition index (l : list float) (i : Z) : result float :=
  match nth_error l (Z.to_nat i) with
  | Some x => Ok x
  | None => Raise IndexError
  end.

(** Lines 135-141: a float division raises when the divisor is zero. *)
Definition suspect (avg : float) (signal : string) (count : float)
  : result suspicious :=
  if PrimFloat.eqb avg 0%float then Raise ZeroDivisionError
  else Ok {| name := signal;
             transitions := count;
             suspicion_score := PrimFloat.sub 1%float (PrimFloat.div count avg);
             percentage_of_avg :=
               if PrimFloat.ltb 0%float avg
               then PrimFloat.mul (PrimFloat.div count avg) 100%float
               else 0%float |}.

(** Lines 133-141. *)
Fixpoint find_suspicious (threshold avg : float) (items : list (string * float))
    (acc : list suspicious) : result (list suspicious) :=
  match items with
  | [] => Ok acc
  | (signal, count) :: rest =>
      if PrimFloat.ltb count threshold && PrimFloat.ltb 0%float count
      then s ← suspect avg signal count;
           find_suspicious threshold avg rest (acc ++ [s])%list
      else find_suspicious threshold avg rest acc
  end.

(** Lines 115-144, from the empty list of a new detector; [avg] is
    [self.avg_transitions]. *)
Definition identify_suspicious_signals (percentile : Z) (avg : float)
    (td : list (string * float)) : result (list suspicious) :=
  match td with
  | [] => Ok []
  | _ =>
      match positive_counts td with
      | [] => Ok []
      | counts =>
          let counts_sorted := sort PrimFloat.leb counts in
          let threshold_index :=
            threshold_index (length counts_sorted) percentile in
          threshold ← index counts_sorted threshold_index;
          found ← find_suspicious threshold avg td [];
          Ok (sort (fun a b => PrimFloat.leb (transitions a) (transitions b))
                   found)
      end
  end.

(** [load_transition_data] and then [identify_suspicious_signals]. *)
Definition run (percentile : Z) (td : list (string * float))
  : result (list suspicious) :=
  identify_suspicious_signals percentile (average (map snd td)) td.

End PCTDFloat.

(** * Vocabulary of the properties *)

(** ** Decoder *)

Module DecoderSpec.

Import VCD Report.

(** Every count in the table is at least 1: an entry is made by the
    first increment. *)
Definition counted (tr : gmap string Z) : Prop :=
  map_Forall (fun _ count => 1 <= count) tr.

(** The aggregates that the claim C6 describes: over every declared
    signal, those without a counted transition included with count 0. *)
Definition aggregates_over_declared (a : VCDAnalyzer) (s : count_stats)
  : Prop :=
  min_trans s = min_or_0 (declared_counts a) /\
  max_trans s = max_or_0 (declared_counts a) /\
  (avg_trans s == avg_or_0 (declared_counts a))%Q.

End DecoderSpec.

(** ** Scorer *)

Module ScorerSpec.

Import PCTD.

(** The elements with the key [k]. *)
Definition with_key {A} (key : A -> Q) (k : Q) (l : list A) : list A :=
  List.filter (fun x => Qeq_bool (key x) k) l.

(** [x in s] *)
Definition occurs_in (x s : string) : Prop :=
  exists pre post : string, s = pre ++ x ++ post.

(** A name is register-like when a name of the hint set occurs in it or
    it occurs in a name of the hint set, or when a pattern of the list
    matches it; the pattern that decides is the first one that matches. *)
Definition hinted (dffs : list string) (n : string) : Prop :=
  exists dff, In dff dffs /\ (occurs_in dff n \/ occurs_in n dff).

Definition first_match (patterns : list (list atom)) (n : string) : Prop :=
  exists pre p post,
    patterns = (pre ++ p :: post)%list /\
    Forall (fun q => re_match q n = false) pre /\
    re_match p n = true.

Definition register_like (dffs : list string) (n : string) : Prop :=
  hinted dffs n \/ first_match dff_patterns n.

(** The candidates in the order in which the loop meets them. *)
Definition encountered (d : PCTDDetector) : list candidate :=
  map make_candidate
      (List.filter (fun s => is_dff (dff_list d) (name s)) (suspicious_signals d)).

(** The records of the signals below the threshold, in the order of the
    table. *)
Definition suspects (threshold avg : Q) (items : list (string * jvalue))
  : list suspicious :=
  omap (fun item : string * jvalue =>
          match below_threshold threshold item.2 with
          | Some count =>
              Some {| name := item.1;
                      transitions := count;
                      suspicion_score := (1 - count / avg)%Q;
                      percentage_of_avg :=
                        if Qlt_bool 0 avg then (count / avg * 100)%Q else 0%Q |}
          | None => None
          end) items.

(** The detector that [run_detection] hands to the scorer. *)
Definition loaded (percentile : Z) (td : list (string * jvalue))
    (dffs : list string) : PCTDDetector :=
  with_dff_list dffs
    (load_transition_data td (with_threshold_percentile percentile init)).


(** Every numeric value of the table is at least [lo]. *)
Definition counts_at_least (lo : Q) (td : list (string * jvalue)) : Prop :=
  Forall (fun item : string * jvalue =>
            forall q, number item.2 = Some q -> (lo <= q)%Q) td.


(** The index of the specification: [floor(N * P / 100)] clamped to
    [[0, N-1]]. *)
Definition clamped_index (n : nat) (percentile : Z) : Z :=
  Z.max 0 (Z.min (Z.of_nat n - 1) (Z.of_nat n * percentile / 100)).

(** The table of the specification: counts 1 to 100, percentile 10. *)
Definition signal_number (i : nat) : string :=
  "s" ++ NilEmpty.string_of_uint (Nat.to_uint i).

Definition counts_1_to_100 : list (string * jvalue) :=
  map (fun i => (signal_number i, JNumber (inject_Z (Z.of_nat i)))) (seq 1 100).

(** Five signals that never change, one register with two transitions
    and nine signals with three. *)
Definition mostly_idle : list (string * jvalue) :=
  [("z0", JNumber 0); ("z1", JNumber 0); ("z2", JNumber 0); ("z3", JNumber 0);
   ("z4", JNumber 0); ("state_reg", JNumber 2);
   ("a1", JNumber 3); ("a2", JNumber 3); ("a3", JNumber 3); ("a4", JNumber 3);
   ("a5", JNumber 3); ("a6", JNumber 3); ("a7", JNumber 3); ("a8", JNumber 3);
   ("a9", JNumber 3)].


(** The five name patterns, said of the name itself. Letters count
    without their case; [.] is any character but the newline, so what
    precedes the word is on the first line; [$] is the end of the name or
    the place before a newline that ends it. *)
Fixpoint all_chars (f : ascii -> bool) (s : string) : bool :=
  match s with
  | EmptyString => true
  | String c s' => f c && all_chars f s'
  end.

Definition one_line (s : string) : bool :=
  all_chars (fun c => negb (Ascii.eqb c "010")) s.

Definition digits (s : string) : bool := all_chars Py.is_digit s.

Definition same_letters (x w : string) : Prop :=
  Report.lower_string x = Report.lower_string w.

(** The character [c] or nothing. *)
Definition optional (c : ascii) (s : string) : Prop :=
  s = "" \/ s = String c "".

(** [.*w\[?\d*\]?$]: the name ends in the word [w], which an index may
    follow: an optional [[], digits, an optional []]. *)
Definition ends_in (w n : string) : Prop :=
  exists pre mid ob ds cb nl : string,
    n = pre ++ mid ++ ob ++ ds ++ cb ++ nl /\
    one_line pre = true /\ same_letters mid w /\
    optional "[" ob /\ digits ds = true /\ optional "]" cb /\
    optional "010" nl.

(** [.*w.*]: the word [w] is in the first line of the name. *)
Definition has_word (w n : string) : Prop :=
  exists pre mid post : string,
    n = pre ++ mid ++ post /\ one_line pre = true /\ same_letters mid w.

Definition register_name (n : string) : Prop :=
  ends_in "_reg" n \/ ends_in "_q" n \/
  has_word "state" n \/ has_word "count" n \/ has_word "shift" n.

(** Scoring a detector a second time leaves the candidate list as the
    first scoring made it. *)
Definition same_list_again (d : PCTDDetector) : Prop :=
  forall d1 d2, score d = Ok d1 -> score d1 = Ok d2 ->
                trojan_candidates d2 = trojan_candidates d1.

(** A table of forty frequencies: one signal at the least positive
    float, [5e-324], nine at twice that, [1e-323], and thirty at [0.0].
    Every sum of these values is exact. *)
Definition least_float : float := 0x1p-1074%float.

Definition tiny_frequencies : list (string * float) :=
  (("idle_reg", least_float)
   :: map (fun i => (signal_number i, PrimFloat.add least_float least_float))
          (seq 1 9)
   ++ map (fun i => (signal_number i, 0%float)) (seq 10 30))%list.

End ScorerSpec.

(** ** Decoder, further vocabulary *)

Module DecoderMore.

Import VCD Report.

(** A string without whitespace, as a token of [split] is. *)
Fixpoint no_space (s : string) : bool :=
  match s with
  | EmptyString => true
  | String c s' => negb (Py.is_space c) && no_space s'
  end.

(** A value symbol of a scalar change. *)
Definition symbol (c : ascii) : bool := Py.char_in c "01xzXZ".

Definition binary (c : ascii) : bool := Ascii.eqb c "0" || Ascii.eqb c "1".

(** The tally by hand of a sequence of scalar symbols of one signal:
    the adjacent pairs of different binary symbols. [prev] is the
    symbol seen before the sequence, if any. *)
Fixpoint scalar_tally (prev : option ascii) (vs : list ascii) : Z :=
  match vs with
  | [] => 0
  | v :: vs' =>
      (match prev with
       | Some p => if binary p && binary v && negb (Ascii.eqb p v) then 1 else 0
       | None => 0
       end) + scalar_tally (Some v) vs'
  end.

(** The tally by hand of a sequence of bus or real values: the adjacent
    pairs of different strings. *)
Fixpoint word_tally (prev : option string) (vs : list string) : Z :=
  match vs with
  | [] => 0
  | v :: vs' =>
      (match prev with
       | Some p => if String.eqb p v then 0 else 1
       | None => 0
       end) + word_tally (Some v) vs'
  end.

(** The lines of a sequence of scalar changes, and of bus or real
    changes with the marker [m], on the code [signal_id]. *)
Definition scalar_lines (signal_id : string) (vs : list ascii) : list string :=
  map (fun v => String v signal_id) vs.

Definition word_lines (m : ascii) (signal_id : string) (vs : list string)
  : list string :=
  map (fun v => String m (v ++ String " " signal_id)) vs.

(** The count of a name, [0] without an entry. *)
Definition count_of (a : VCDAnalyzer) (n : string) : Z :=
  default 0 (transitions a !! n).

(** The history of a name, empty without an entry. *)
Definition history_of (a : VCDAnalyzer) (n : string) : list (Z * string) :=
  default [] (signal_values a !! n).

(** A line that does not set the time: it does not start with [#], or
    what follows the [#] is not an integer. *)
Definition no_timestamp (raw : string) : Prop :=
  Py.startswith (Py.strip raw) "#" = true ->
  Py.int (Py.tail (Py.strip raw)) = None.

(** A dictionary that [json.dump] wrote and [json.load] read back, as
    the list of its items in some order. *)
Definition listing (td : list (string * PCTD.jvalue)) (m : gmap string Z)
  : Prop :=
  NoDup td.*1 /\
  list_to_map td = (fun c : Z => PCTD.JNumber (inject_Z c)) <$> m.

(** The time invariant of the loop: the simulation time is not
    negative, the current time does not exceed it, and neither does the
    time of any recorded value. *)
Definition timed (st : loop_state) : Prop :=
  0 <= simulation_time (self st) /\
  current_time st <= simulation_time (self st) /\
  forall n h t v, signal_values (self st) !! n = Some h -> In (t, v) h ->
                  t <= simulation_time (self st).

(** What a later state keeps of an earlier one. *)
Definition extends (st st' : loop_state) : Prop :=
  (forall signal_id, is_Some (signals (self st) !! signal_id) ->
                     is_Some (signals (self st') !! signal_id)) /\
  (forall n, count_of (self st) n <= count_of (self st') n) /\
  (forall n, exists more, history_of (self st') n
                          = (history_of (self st) n ++ more)%list) /\
  simulation_time (self st) <= simulation_time (self st') /\
  (in_dump_section st = true -> in_dump_section st' = true).

(** A line that does not write the entry of the code [signal_id] in
    [self.signals]: a blank line, a time stamp, a command other than a
    declaration, a declaration of another code, or a value change that
    names another code. *)
Definition other_line (signal_id raw : string) : Prop :=
  Py.strip raw = "" \/
  Py.startswith (Py.strip raw) "#" = true \/
  (Py.startswith (Py.strip raw) "$" = true /\
   Py.startswith (Py.strip raw) "$var" = false) \/
  (Py.startswith (Py.strip raw) "$var" = true /\
   forall k var_type var_size var_id var_name more,
     Py.split (Py.strip raw)
     = k :: var_type :: var_size :: var_id :: var_name :: more ->
     var_id <> signal_id) \/
  (exists c id, Py.strip raw = String c id /\
                Py.char_in c "01xzXZ" = true /\ id <> "" /\ id <> signal_id) \/
  (exists marker rest p0 id more,
      (marker = "b"%char \/ marker = "r"%char) /\
      Py.strip raw = String marker rest /\
      Py.split (String marker rest) = p0 :: id :: more /\ id <> signal_id).

End DecoderMore.

(** ** Scorer, further vocabulary *)

Module ScorerMore.

Import PCTD.

(** What the loop of [identify_suspicious_signals] puts in a record. *)
Definition well_formed (threshold avg : Q) (s : suspicious) : Prop :=
  (0 < transitions s)%Q /\ (transitions s < threshold)%Q /\
  suspicion_score s = (1 - transitions s / avg)%Q /\
  percentage_of_avg s
  = if Qlt_bool 0 avg then (transitions s / avg * 100)%Q else 0%Q.

(** The patterns of the decoder's classifier that the scorer's
    classifier covers: [_Q], [_q] and [_reg] at the end of the name, and
    [state], [count] and [shift] anywhere in it. *)
Definition covered_patterns : list (list atom) :=
  omap (fun i => Statistics.dff_patterns !! i) [0; 1; 3; 5; 7; 8]%nat.


(** Every numeric value of the table is between [lo] and [hi]. *)
Definition counts_between (lo hi : Q) (td : list (string * jvalue)) : Prop :=
  Forall (fun item : string * jvalue =>
            forall q, number item.2 = Some q -> (lo <= q)%Q /\ (q <= hi)%Q) td.


End ScorerMore.

(** * Properties of the decoder *)

Module DecoderFacts.

Import VCD Report DecoderSpec.

(** ** Dispatch of a line of the dump section *)

Lemma char_in_scalar_symbols (c : ascii) :
  Py.char_in c "01xzXZ" = true ->
  c = "0"%char \/ c = "1"%char \/ c = "x"%char \/ c = "z"%char \/
  c = "X"%char \/ c = "Z"%char.
Proof.
  destruct c as [[] [] [] [] [] [] [] []];
    vm_compute; intros H; try discriminate H; tauto.
Qed.

Lemma parse_line_scalar (st : loop_state) (raw : string) (c : ascii)
    (signal_id : string) :
  in_dump_section st = true ->
  Py.strip raw = String c signal_id ->
  signal_id <> "" ->
  Py.char_in c "01xzXZ" = true ->
  parse_line st raw = scalar_change st (String c "") signal_id.
Proof.
  intros Hdump Hline Hid Hc. unfold parse_line. rewrite Hline, Hdump.
  destruct signal_id as [|c1 rest]; [congruence|].
  apply char_in_scalar_symbols in Hc.
  destruct Hc as [-> | [-> | [-> | [-> | [-> | ->]]]]]; reflexivity.
Qed.

Lemma parse_line_word (st : loop_state) (raw rest : string) (marker : ascii) :
  in_dump_section st = true ->
  marker = "b"%char \/ marker = "r"%char ->
  Py.strip raw = String marker rest ->
  parse_line st raw =
  word_change (Ascii.eqb marker "b") st (String marker rest).
Proof.
  intros Hdump Hm Hline. unfold parse_line. rewrite Hline, Hdump.
  destruct Hm as [-> | ->]; destruct rest; reflexivity.
Qed.

(** ** The counters after one event *)

Lemma lookup_increment (tr : gmap string Z) (n : string) :
  increment tr n !! n = Some (default 0 (tr !! n) + 1).
Proof. unfold increment. apply lookup_insert_eq. Qed.

Lemma changed_spec (last : option string) (value : string) :
  changed last value = true <-> exists lv, last = Some lv /\ lv <> value.
Proof.
  unfold changed. destruct last as [lv|].
  - rewrite negb_true_iff. destruct (String.eqb_spec lv value) as [->|Hne].
    + split; [discriminate|]. intros (lv' & [= <-] & Hne). congruence.
    + split; [eauto|reflexivity].
  - split; [discriminate|]. intros (lv & Hlv & _). discriminate.
Qed.

Lemma word_change_transitions (keep : bool) (st : loop_state)
    (line p0 signal_id : string) (more : list string) (sg : signal) :
  Py.split line = p0 :: signal_id :: more ->
  signals (self st) !! signal_id = Some sg ->
  transitions (self (word_change keep st line)) =
  if changed (last_value sg) (Py.tail p0)
  then increment (transitions (self st)) (name sg)
  else transitions (self st).
Proof.
  intros Hsplit Hsig. unfold word_change. rewrite Hsplit, Hsig. reflexivity.
Qed.

Lemma word_change_signals (keep : bool) (st : loop_state)
    (line p0 signal_id : string) (more : list string) (sg : signal) :
  Py.split line = p0 :: signal_id :: more ->
  signals (self st) !! signal_id = Some sg ->
  signals (self (word_change keep st line)) !! signal_id =
  Some (set_last_value sg (Py.tail p0)).
Proof.
  intros Hsplit Hsig. unfold word_change. rewrite Hsplit, Hsig. simpl.
  apply lookup_insert_eq.
Qed.

Lemma word_change_signal_values (keep : bool) (st : loop_state)
    (line p0 signal_id : string) (more : list string) (sg : signal) :
  Py.split line = p0 :: signal_id :: more ->
  signals (self st) !! signal_id = Some sg ->
  signal_values (self (word_change keep st line)) =
  if keep
  then append_value (signal_values (self st)) (name sg) (current_time st)
         (Py.tail p0)
  else signal_values (self st).
Proof.
  intros Hsplit Hsig. unfold word_change. rewrite Hsplit, Hsig. reflexivity.
Qed.

Lemma scalar_change_transitions (st : loop_state) (value signal_id : string)
    (sg : signal) :
  signals (self st) !! signal_id = Some sg ->
  transitions (self (scalar_change st value signal_id)) =
  if changed (last_value sg) value && both_binary (last_value sg) value
  then increment (transitions (self st)) (name sg)
  else transitions (self st).
Proof. intros Hsig. unfold scalar_change. rewrite Hsig. reflexivity. Qed.

Lemma scalar_change_signals (st : loop_state) (value signal_id : string)
    (sg : signal) :
  signals (self st) !! signal_id = Some sg ->
  signals (self (scalar_change st value signal_id)) !! signal_id =
  Some (set_last_value sg value).
Proof.
  intros Hsig. unfold scalar_change. rewrite Hsig. simpl.
  apply lookup_insert_eq.
Qed.

Lemma scalar_change_signal_values (st : loop_state) (value signal_id : string)
    (sg : signal) :
  signals (self st) !! signal_id = Some sg ->
  signal_values (self (scalar_change st value signal_id)) =
  append_value (signal_values (self st)) (name sg) (current_time st) value.
Proof. intros Hsig. unfold scalar_change. rewrite Hsig. reflexivity. Qed.

(** A stored value that a scalar event wrote is one character; on such a
    value, [in '01'] is membership in the two binary symbols. *)
Lemma contains_01_symbol (c : ascii) :
  Py.contains "01" (String c "") = true <-> c = "0"%char \/ c = "1"%char.
Proof.
  split.
  - destruct c as [[] [] [] [] [] [] [] []];
      vm_compute; intros H; try discriminate H; tauto.
  - intros [-> | ->]; reflexivity.
Qed.

(** ** The scalar rule *)

(** When the stored value is [None] or one character (what a scalar event
    stores), a scalar event counts a transition exactly when the stored
    and the new symbol are both binary and differ, and it always stores
    the new symbol. *)
Lemma scalar_rule_on_symbols (st : loop_state) (raw : string) (c : ascii)
    (signal_id : string) (sg : signal) :
  in_dump_section st = true ->
  Py.strip raw = String c signal_id ->
  signal_id <> "" ->
  Py.char_in c "01xzXZ" = true ->
  signals (self st) !! signal_id = Some sg ->
  last_value sg = None \/ (exists p, last_value sg = Some (String p "")) ->
  let st' := parse_line st raw in
  let count a := default 0 (transitions a !! name sg) in
  let counted :=
    exists p, last_value sg = Some (String p "") /\
              (p = "0"%char \/ p = "1"%char) /\
              (c = "0"%char \/ c = "1"%char) /\ p <> c in
  (counted -> count (self st') = count (self st) + 1) /\
  (~ counted -> transitions (self st') = transitions (self st)) /\
  signals (self st') !! signal_id = Some (set_last_value sg (String c "")).
Proof.
  intros Hdump Hline Hid Hc Hsig Hlast st' count counted.
  subst st'. rewrite (parse_line_scalar st raw c signal_id) by assumption.
  split; [|split].
  - intros (p & Hp & Hp01 & Hc01 & Hne). unfold count.
    rewrite (scalar_change_transitions _ _ _ sg Hsig), Hp.
    unfold changed, both_binary.
    replace (negb (String.eqb (String p "") (String c ""))) with true.
    2:{ symmetry. apply negb_true_iff, String.eqb_neq. congruence. }
    rewrite (proj2 (contains_01_symbol c) Hc01),
      (proj2 (contains_01_symbol p) Hp01).
    cbn [andb]. rewrite lookup_increment. reflexivity.
  - intros Hnot. rewrite (scalar_change_transitions _ _ _ sg Hsig).
    destruct (changed (last_value sg) (String c "")
              && both_binary (last_value sg) (String c "")) eqn:Htest;
      [|reflexivity].
    exfalso. apply Hnot. apply andb_true_iff in Htest as [Hch Hbin].
    destruct Hlast as [Hnone | [p Hp]].
    + rewrite Hnone in Hch. discriminate.
    + exists p. rewrite Hp in Hch, Hbin. unfold changed, both_binary in Hch, Hbin.
      apply andb_true_iff in Hbin as [Hc01 Hp01].
      apply contains_01_symbol in Hc01, Hp01.
      apply negb_true_iff, String.eqb_neq in Hch.
      repeat split; try assumption. congruence.
  - apply scalar_change_signals. assumption.
Qed.

(** The two scalar traces of the specification, each on one code. *)
Example scalar_0101_counts_three :
  transitions
    (parse_vcd ["$var wire 1 ! a $end"; "#0"; "0!"; "#1"; "1!"; "#2"; "0!";
                "#3"; "1!"]) !! "a" = Some 3.
Proof. vm_compute. reflexivity. Qed.

Example scalar_0x1_counts_none :
  transitions
    (parse_vcd ["$var wire 1 ! a $end"; "#0"; "0!"; "#1"; "x!"; "#2"; "1!"])
  !! "a" = None.
Proof. vm_compute. reflexivity. Qed.

(** C1, at an input where the rule of the claim is not followed: a code
    that received the bus value [01] and then receives the scalar symbol
    [0]. The stored value is not [None], it is neither of the symbols [0]
    and [1], and yet the scalar event increments the count of the
    signal (from no entry to 1), because [last_value in '01'] is a
    substring test that the two-character string [01] passes. *)
Theorem scalar_event_after_bus_value_is_counted :
  let st := parse_lines (start init) ["$var wire 2 ! a $end"; "#0"; "b01 !"] in
  (last_value <$> signals (self st) !! "!") = Some (Some "01") /\
  transitions (self st) !! "a" = None /\
  parse_line st "0!" = scalar_change st "0" "!" /\
  transitions (self (parse_line st "0!")) !! "a" = Some 1 /\
  transitions (parse_vcd ["$var wire 2 ! a $end"; "#0"; "b01 !"; "0!"]) !! "a"
  = Some 1.
Proof. vm_compute. repeat split; reflexivity. Qed.

(** ** The bus and real rule *)

(** C2: a bus ([b]) or real ([r]) value-change line of the dump section
    on a declared code increments the count of the signal if and only if
    a value is stored and the new value string differs from it, whatever
    the characters of the two strings are; otherwise the counts are left
    as they are; the new string is stored. The bus trace [b00, b01, b00]
    gives the count 2, and so does [b00, b0x, b00]. *)
Theorem bus_and_real_rule :
  (forall (st : loop_state) (raw rest p0 signal_id : string)
          (more : list string) (marker : ascii) (sg : signal),
      in_dump_section st = true ->
      marker = "b"%char \/ marker = "r"%char ->
      Py.strip raw = String marker rest ->
      Py.split (String marker rest) = p0 :: signal_id :: more ->
      signals (self st) !! signal_id = Some sg ->
      let value := Py.tail p0 in
      let st' := parse_line st raw in
      let count a := default 0 (transitions a !! name sg) in
      let differs := exists lv, last_value sg = Some lv /\ lv <> value in
      (count (self st') = count (self st) + 1 <-> differs) /\
      (~ differs -> transitions (self st') = transitions (self st)) /\
      signals (self st') !! signal_id = Some (set_last_value sg value)) /\
  transitions
    (parse_vcd ["$var wire 2 ! bus $end"; "#0"; "b00 !"; "#1"; "b01 !"; "#2";
                "b00 !"]) !! "bus" = Some 2 /\
  transitions
    (parse_vcd ["$var wire 2 ! bus $end"; "#0"; "b00 !"; "#1"; "b0x !"; "#2";
                "b00 !"]) !! "bus" = Some 2.
Proof.
  split; [|split; vm_compute; reflexivity].
  intros st raw rest p0 signal_id more marker sg Hdump Hm Hline Hsplit Hsig
    value st' count differs.
  subst st'. rewrite (parse_line_word st raw rest marker) by assumption.
  unfold count.
  rewrite (word_change_transitions _ _ _ p0 signal_id more sg Hsplit Hsig).
  fold value. pose proof (changed_spec (last_value sg) value) as Hch.
  fold differs in Hch.
  split; [|split].
  - destruct (changed (last_value sg) value).
    + rewrite lookup_increment. simpl. split; [intros _|reflexivity].
      apply Hch. reflexivity.
    + split; [lia|]. intros Hd. apply Hch in Hd. discriminate.
  - intros Hnot. destruct (changed (last_value sg) value); [|reflexivity].
    exfalso. apply Hnot, Hch. reflexivity.
  - apply (word_change_signals _ _ _ p0 signal_id more sg Hsplit Hsig).
Qed.

Lemma bus_and_real_rule_witness :
  let st := parse_lines (start init) ["$var wire 2 ! bus $end"; "#0"; "b00 !"] in
  let sg := {| name := "bus"; type := "wire"; size := "2";
               last_value := Some "00" |} in
  (default 0 (transitions (self (parse_line st "b01 !")) !! "bus")
   = default 0 (transitions (self st) !! "bus") + 1
   <-> exists lv, Some "00" = Some lv /\ lv <> "01") /\
  (~ (exists lv, Some "00" = Some lv /\ lv <> "01") ->
   transitions (self (parse_line st "b01 !")) = transitions (self st)) /\
  signals (self (parse_line st "b01 !")) !! "!" = Some (set_last_value sg "01").
Proof.
  intros st sg.
  apply (proj1 bus_and_real_rule st "b01 !" "01 !" "b01" "!" [] "b"%char sg).
  - reflexivity.
  - left. reflexivity.
  - reflexivity.
  - reflexivity.
  - vm_compute. reflexivity.
Defined.

(** ** The value history *)

(** C9 as stated fails: the history store is not empty after the decode
    of a trace with one scalar event. *)
Lemma history_kept_after_decode :
  ~ (forall lines : list string, signal_values (parse_vcd lines) = ∅).
Proof.
  intros H.
  specialize (H ["$var wire 1 ! a $end"; "#0"; "0!"]).
  apply (f_equal (fun m : gmap string (list (Z * string)) => m !! "a")) in H.
  vm_compute in H. discriminate H.
Qed.

(** C9, amended: the decoder has no option that switches the history
    off. Every scalar event and every bus event of the dump section on a
    declared code appends the pair of the current time and the new value
    to the history of the signal; a real event leaves the history store
    as it is. *)
Theorem history_appended_by_every_event :
  (forall (st : loop_state) (raw : string) (c : ascii) (signal_id : string)
          (sg : signal),
      in_dump_section st = true ->
      Py.strip raw = String c signal_id ->
      signal_id <> "" ->
      Py.char_in c "01xzXZ" = true ->
      signals (self st) !! signal_id = Some sg ->
      signal_values (self (parse_line st raw)) !! name sg =
      Some (default [] (signal_values (self st) !! name sg)
            ++ [(current_time st, String c "")])%list) /\
  (forall (st : loop_state) (raw rest p0 signal_id : string)
          (more : list string) (sg : signal),
      in_dump_section st = true ->
      Py.strip raw = String "b" rest ->
      Py.split (String "b" rest) = p0 :: signal_id :: more ->
      signals (self st) !! signal_id = Some sg ->
      signal_values (self (parse_line st raw)) !! name sg =
      Some (default [] (signal_values (self st) !! name sg)
            ++ [(current_time st, Py.tail p0)])%list) /\
  (forall (st : loop_state) (raw rest p0 signal_id : string)
          (more : list string) (sg : signal),
      in_dump_section st = true ->
      Py.strip raw = String "r" rest ->
      Py.split (String "r" rest) = p0 :: signal_id :: more ->
      signals (self st) !! signal_id = Some sg ->
      signal_values (self (parse_line st raw)) = signal_values (self st)).
Proof.
  split; [|split].
  - intros st raw c signal_id sg Hdump Hline Hid Hc Hsig.
    rewrite (parse_line_scalar st raw c signal_id) by assumption.
    rewrite (scalar_change_signal_values _ _ _ sg Hsig).
    unfold append_value. apply lookup_insert_eq.
  - intros st raw rest p0 signal_id more sg Hdump Hline Hsplit Hsig.
    rewrite (parse_line_word st raw rest "b") by auto.
    rewrite (word_change_signal_values _ _ _ p0 signal_id more sg Hsplit Hsig).
    unfold append_value. apply lookup_insert_eq.
  - intros st raw rest p0 signal_id more sg Hdump Hline Hsplit Hsig.
    rewrite (parse_line_word st raw rest "r") by auto.
    rewrite (word_change_signal_values _ _ _ p0 signal_id more sg Hsplit Hsig).
    reflexivity.
Qed.

Lemma history_appended_by_every_event_witness :
  let st := parse_lines (start init) ["$var wire 1 ! a $end"; "#7"] in
  signal_values (self (parse_line st " 1!")) !! "a" = Some [(7, "1")].
Proof.
  intros st.
  apply (proj1 history_appended_by_every_event st " 1!" "1"%char "!"
           {| name := "a"; type := "wire"; size := "1"; last_value := None |}).
  - reflexivity.
  - reflexivity.
  - discriminate.
  - reflexivity.
  - vm_compute. reflexivity.
Defined.

(** ** The table of counts and its aggregates *)

Lemma counted_increment (tr : gmap string Z) (n : string) :
  counted tr -> counted (increment tr n).
Proof.
  intros Htr. unfold increment. apply map_Forall_insert_2; [|assumption].
  destruct (tr !! n) as [count|] eqn:Hn; simpl; [|lia].
  specialize (Htr n count Hn). simpl in Htr. lia.
Qed.

Lemma counted_scalar_change (st : loop_state) (value signal_id : string) :
  counted (transitions (self st)) ->
  counted (transitions (self (scalar_change st value signal_id))).
Proof.
  intros Htr. unfold scalar_change.
  destruct (signals (self st) !! signal_id) as [sg|]; [|assumption].
  simpl. destruct (_ && _); auto using counted_increment.
Qed.

Lemma counted_word_change (keep : bool) (st : loop_state) (line : string) :
  counted (transitions (self st)) ->
  counted (transitions (self (word_change keep st line))).
Proof.
  intros Htr. unfold word_change.
  destruct (Py.split line) as [|p0 [|signal_id more]]; try assumption.
  destruct (signals (self st) !! signal_id) as [sg|]; [|assumption].
  simpl. destruct (changed _ _); auto using counted_increment.
Qed.

Lemma counted_value_change (st : loop_state) (line : string) :
  counted (transitions (self st)) ->
  counted (transitions (self (value_change st line))).
Proof.
  intros Htr. unfold value_change, vector_change, real_change.
  repeat case_match;
    auto using counted_scalar_change, counted_word_change.
Qed.

Lemma counted_parse_line (st : loop_state) (raw : string) :
  counted (transitions (self st)) ->
  counted (transitions (self (parse_line st raw))).
Proof.
  intros Htr. unfold parse_line.
  repeat case_match; try assumption.
  - unfold parse_var. simpl. case_match; try assumption.
    repeat case_match; assumption.
  - unfold parse_timestamp. case_match; assumption.
  - apply counted_value_change. assumption.
Qed.

Lemma counted_parse_lines (lines : list string) (st : loop_state) :
  counted (transitions (self st)) ->
  counted (transitions (self (parse_lines st lines))).
Proof.
  revert st. induction lines as [|raw lines IH]; intros st Htr; [assumption|].
  simpl. apply IH, counted_parse_line, Htr.
Qed.

Lemma counted_parse_vcd (lines : list string) :
  counted (transitions (parse_vcd lines)).
Proof.
  apply counted_parse_lines. simpl. apply map_Forall_empty.
Qed.

(** Aggregates of a list of counts that are all at least 1. *)
Lemma fold_min_bounds (l : list Z) (x lo : Z) :
  lo <= x -> Forall (fun y => lo <= y) l ->
  lo <= fold_left Z.min l x <= x.
Proof.
  revert x. induction l as [|y l IH]; intros x Hx Hl; simpl; [lia|].
  inversion Hl as [|? ? Hy Hl']; subst.
  specialize (IH (Z.min x y) ltac:(lia) Hl'). lia.
Qed.

Lemma fold_max_bound (l : list Z) (x : Z) : x <= fold_left Z.max l x.
Proof.
  revert x. induction l as [|y l IH]; intros x; simpl; [lia|].
  specialize (IH (Z.max x y)). lia.
Qed.

Lemma fold_add_bound (l : list Z) (acc : Z) :
  Forall (fun y => 1 <= y) l ->
  acc + Z.of_nat (length l) <= fold_left Z.add l acc.
Proof.
  revert acc. induction l as [|y l IH]; intros acc Hl; simpl; [lia|].
  inversion Hl as [|? ? Hy Hl']; subst.
  specialize (IH (acc + y) Hl'). lia.
Qed.

Lemma stats_of_counted (l : list Z) :
  l <> [] -> Forall (fun y => 1 <= y) l ->
  1 <= min_trans (stats_of l) /\
  min_trans (stats_of l) <= max_trans (stats_of l) /\
  (1 <= avg_trans (stats_of l))%Q.
Proof.
  intros Hne Hl. destruct l as [|x l]; [congruence|].
  inversion Hl as [|? ? Hx Hl']; subst.
  unfold stats_of. cbn [min_trans max_trans avg_trans min_or_0 max_or_0].
  pose proof (fold_min_bounds l x 1 Hx Hl').
  pose proof (fold_max_bound l x).
  split; [lia|]. split; [lia|].
  pose proof (fold_add_bound (x :: l) 0 Hl) as Hsum.
  change (fold_left Z.add (x :: l) 0) with (sum (x :: l)) in Hsum.
  unfold avg_or_0.
  apply Qle_shift_div_l.
  - change 0%Q with (inject_Z 0). rewrite <- Zlt_Qlt.
    rewrite length_cons. lia.
  - rewrite Qmult_1_l. rewrite <- Zle_Qle. lia.
Qed.

(** C6 as stated fails. Signal [a] changes once, signal [b] is declared
    and never changes: the report has minimum 1 and average 1, where the
    counts of the declared signals have minimum 0 and average 1/2. *)
Lemma zero_count_signal_not_aggregated :
  ~ (forall (lines : list string) (s : count_stats),
        generate_report_stats (parse_vcd lines) = Some s ->
        aggregates_over_declared (parse_vcd lines) s).
Proof.
  intros H.
  specialize (H ["$var wire 1 ! a $end"; "$var wire 1 # b $end"; "#0"; "0!";
                 "0#"; "#5"; "1!"]
                {| min_trans := 1; max_trans := 1; avg_trans := 1 |}).
  destruct H as [Hmin _]; [vm_compute; reflexivity|].
  vm_compute in Hmin. discriminate Hmin.
Qed.

(** C6, amended: after a decode the table of counts holds only names
    with at least one counted transition, so a declared signal whose
    count is 0 has no entry; the count aggregates of the report are the
    minimum, maximum and average of the entries of that table, and
    therefore the minimum and the average are at least 1. *)
Theorem aggregates_over_counted_signals (lines : list string) :
  let a := parse_vcd lines in
  (forall (n : string) (count : Z), transitions a !! n = Some count -> 1 <= count) /\
  (forall s : count_stats,
      generate_report_stats a = Some s ->
      s = stats_of (map_to_list (transitions a)).*2 /\
      1 <= min_trans s /\ min_trans s <= max_trans s /\ (1 <= avg_trans s)%Q).
Proof.
  intros a. pose proof (counted_parse_vcd lines) as Htr. fold a in Htr.
  split; [exact Htr|].
  intros s Hs. unfold generate_report_stats in Hs.
  destruct (decide (calculate_frequencies a = ∅)) as [|Hne]; [discriminate|].
  injection Hs as <-. split; [reflexivity|].
  apply stats_of_counted.
  - unfold trans_counts. intros Hnil. apply Hne.
    unfold calculate_frequencies. apply fmap_empty_iff.
    apply map_to_list_empty_iff. apply fmap_nil_inv in Hnil. exact Hnil.
  - unfold trans_counts. apply Forall_fmap.
    apply map_Forall_to_list in Htr.
    eapply Forall_impl; [exact Htr|]. intros [n count]. simpl. auto.
Qed.

Lemma aggregates_over_counted_signals_witness :
  let a := parse_vcd ["$var wire 1 ! a $end"; "$var wire 1 # b $end"; "#0";
                      "0!"; "0#"; "#5"; "1!"] in
  let s := {| min_trans := 1; max_trans := 1; avg_trans := 1 |} in
  generate_report_stats a = Some s /\
  (s = stats_of (map_to_list (transitions a)).*2 /\
   1 <= min_trans s /\ min_trans s <= max_trans s /\ (1 <= avg_trans s)%Q).
Proof.
  intros a s.
  assert (Hs : generate_report_stats a = Some s) by (vm_compute; reflexivity).
  split; [exact Hs|].
  exact (proj2 (aggregates_over_counted_signals _) s Hs).
Defined.

End DecoderFacts.

(** * Properties of the scorer *)

Module ScorerFacts.

Import PCTD ScorerSpec.

(** ** Comparisons of rationals *)

Lemma Qlt_bool_iff (x y : Q) : Qlt_bool x y = true <-> (x < y)%Q.
Proof.
  unfold Qlt_bool. rewrite negb_true_iff.
  split.
  - intros H. apply Qnot_le_lt. intros Hle.
    apply Qle_bool_iff in Hle. congruence.
  - intros H. destruct (Qle_bool y x) eqn:Hle; [|reflexivity].
    apply Qle_bool_iff in Hle. exfalso. exact (Qlt_not_le _ _ H Hle).
Qed.

Lemma Qlt_bool_false_iff (x y : Q) : Qlt_bool x y = false <-> (y <= x)%Q.
Proof.
  unfold Qlt_bool. rewrite negb_false_iff. apply Qle_bool_iff.
Qed.

Lemma Qle_bool_total (x y : Q) : Qle_bool x y = false -> Qle_bool y x = true.
Proof.
  intros H. apply Qle_bool_iff. apply Qlt_le_weak. apply Qnot_le_lt.
  intros Hle. apply Qle_bool_iff in Hle. congruence.
Qed.

Lemma Qle_bool_trans (x y z : Q) :
  Qle_bool x y = true -> Qle_bool y z = true -> Qle_bool x z = true.
Proof.
  rewrite !Qle_bool_iff. apply Qle_trans.
Qed.

(** ** The stable sort *)

Section StableSortFacts.
Context {A : Type} (le : A -> A -> bool).
Hypothesis le_total : forall x y, le x y = false -> le y x = true.
Hypothesis le_trans : forall x y z, le x y = true -> le y z = true -> le x z = true.

Lemma insert_permutation (x : A) (l : list A) :
  Permutation (insert le x l) (x :: l).
Proof.
  induction l as [|y l IH]; simpl; [reflexivity|].
  destruct (le x y); [reflexivity|].
  rewrite IH. apply perm_swap.
Qed.

Lemma sort_permutation (l : list A) : Permutation (sort le l) l.
Proof.
  induction l as [|x l IH]; simpl; [reflexivity|].
  rewrite insert_permutation. constructor. exact IH.
Qed.

Lemma insert_sorted (x : A) (l : list A) :
  StronglySorted (fun a b => le a b = true) l ->
  StronglySorted (fun a b => le a b = true) (insert le x l).
Proof.
  induction 1 as [|y l Hl IH Hy]; simpl.
  - repeat constructor.
  - destruct (le x y) eqn:Hxy.
    + constructor; [constructor; assumption|].
      constructor; [exact Hxy|].
      eapply Forall_impl; [exact Hy|]. intros z Hz. simpl in *. eauto.
    + constructor; [exact IH|].
      eapply Permutation_Forall.
      * symmetry. apply insert_permutation.
      * constructor; [auto|exact Hy].
Qed.

Lemma sort_sorted (l : list A) :
  StronglySorted (fun a b => le a b = true) (sort le l).
Proof.
  induction l as [|x l IH]; simpl; [constructor|].
  apply insert_sorted, IH.
Qed.

(** Stability: the elements that a test [p] selects keep their order,
    when [p] does not tell apart elements that [le] ranks equal. *)
Lemma insert_filter (p : A -> bool) (x : A) (l : list A) :
  (forall y, p x = true -> le x y = false -> p y = false) ->
  List.filter p (insert le x l) = List.filter p (x :: l).
Proof.
  intros Hp. induction l as [|y l IH]; [reflexivity|].
  cbn [insert]. destruct (le x y) eqn:Hxy; [reflexivity|].
  cbn [List.filter] in *. destruct (p x) eqn:Hpx.
  - rewrite (Hp y eq_refl Hxy). exact IH.
  - destruct (p y); [f_equal|]; exact IH.
Qed.

Lemma sort_filter (p : A -> bool) (l : list A) :
  (forall x y, p x = true -> le x y = false -> p y = false) ->
  List.filter p (sort le l) = List.filter p l.
Proof.
  intros Hp. induction l as [|x l IH]; [reflexivity|].
  cbn [sort]. rewrite insert_filter by (apply Hp).
  cbn [List.filter]. rewrite IH. reflexivity.
Qed.

End StableSortFacts.

Lemma strongly_sorted_weaken {A} (R S : A -> A -> Prop) (l : list A) :
  (forall a b, R a b -> S a b) -> StronglySorted R l -> StronglySorted S l.
Proof.
  intros HRS. induction 1 as [|x l Hl IH Hx]; constructor; [exact IH|].
  eapply Forall_impl; [exact Hx|]. intros y. apply HRS.
Qed.

Lemma sort_by_reverse_spec {A} (key : A -> Q) (l : list A) :
  StronglySorted (fun a b => (key b <= key a)%Q) (sort_by_reverse key l) /\
  Permutation (sort_by_reverse key l) l /\
  (forall k, with_key key k (sort_by_reverse key l) = with_key key k l).
Proof.
  unfold sort_by_reverse. split; [|split].
  - eapply strongly_sorted_weaken.
    2:{ apply sort_sorted.
        - intros x y. apply Qle_bool_total.
        - intros x y z Hxy Hyz. exact (Qle_bool_trans _ _ _ Hyz Hxy). }
    intros a b Hab. simpl in Hab. apply Qle_bool_iff. exact Hab.
  - apply sort_permutation.
  - intros k. unfold with_key. apply sort_filter.
    intros x y Hx Hxy. apply Qeq_bool_iff in Hx.
    destruct (Qeq_bool (key y) k) eqn:Hy; [|reflexivity].
    apply Qeq_bool_iff in Hy. exfalso.
    assert (Hle : Qle_bool (key y) (key x) = true).
    { apply Qle_bool_iff. rewrite Hx, Hy. apply Qle_refl. }
    congruence.
Qed.

Lemma sort_by_spec {A} (key : A -> Q) (l : list A) :
  StronglySorted (fun a b => (key a <= key b)%Q) (sort_by key l) /\
  Permutation (sort_by key l) l /\
  (forall k, with_key key k (sort_by key l) = with_key key k l).
Proof.
  unfold sort_by. split; [|split].
  - eapply strongly_sorted_weaken.
    2:{ apply sort_sorted.
        - intros x y. apply Qle_bool_total.
        - intros x y z. apply Qle_bool_trans. }
    intros a b Hab. simpl in Hab. apply Qle_bool_iff. exact Hab.
  - apply sort_permutation.
  - intros k. unfold with_key. apply sort_filter.
    intros x y Hx Hxy. apply Qeq_bool_iff in Hx.
    destruct (Qeq_bool (key y) k) eqn:Hy; [|reflexivity].
    apply Qeq_bool_iff in Hy. exfalso.
    assert (Hle : Qle_bool (key x) (key y) = true).
    { apply Qle_bool_iff. rewrite Hx, Hy. apply Qle_refl. }
    congruence.
Qed.

(** ** Substrings *)

Lemma append_cons (c : ascii) (x post : string) :
  String c x ++ post = String c (x ++ post).
Proof. reflexivity. Qed.

Lemma append_empty (post : string) : "" ++ post = post.
Proof. reflexivity. Qed.

Lemma prefix_spec (x s : string) :
  String.prefix x s = true <-> exists post : string, s = x ++ post.
Proof.
  revert s. induction x as [|a x IH]; intros s.
  - destruct s; simpl; split; eauto.
  - destruct s as [|b s]; simpl.
    + split; [discriminate|]. intros [post H]. discriminate.
    + destruct (ascii_dec a b) as [->|Hne].
      * rewrite IH. split; intros [post H]; exists post;
          rewrite append_cons in *; congruence.
      * split; [discriminate|]. intros [post H].
        rewrite append_cons in H. congruence.
Qed.

Lemma contains_spec (s x : string) :
  Py.contains s x = true <-> occurs_in x s.
Proof.
  unfold occurs_in. induction s as [|c s IH]; cbn [Py.contains].
  - rewrite orb_false_r, prefix_spec. split.
    + intros [post H]. exists "", post. exact H.
    + intros ([|? ?] & post & H); [eauto|discriminate].
  - rewrite orb_true_iff, prefix_spec, IH. split.
    + intros [[post H] | (pre & post & H)].
      * exists "", post. exact H.
      * exists (String c pre), post. rewrite append_cons. congruence.
    + intros ([|c' pre] & post & H).
      * left. exists post. exact H.
      * right. exists pre, post. rewrite append_cons in H. congruence.
Qed.

(** ** The register classifier *)

Lemma in_dff_list_spec (dffs : list string) (n : string) :
  in_dff_list dffs n = true <-> hinted dffs n.
Proof.
  unfold hinted. induction dffs as [|dff dffs IH]; simpl.
  - split; [discriminate|]. intros (dff & [] & _).
  - destruct (Py.contains n dff || Py.contains dff n) eqn:Hhit.
    + split; [intros _|reflexivity]. exists dff. split; [left; reflexivity|].
      apply orb_true_iff in Hhit. rewrite <- !contains_spec. exact Hhit.
    + rewrite IH. split.
      * intros (dff' & Hin & Hocc). exists dff'. split; [right|]; assumption.
      * intros (dff' & [-> | Hin] & Hocc); [|eauto].
        rewrite <- !contains_spec in Hocc.
        apply orb_true_iff in Hocc. congruence.
Qed.

Lemma matches_pattern_spec (patterns : list (list atom)) (n : string) :
  matches_pattern patterns n = true <-> first_match patterns n.
Proof.
  unfold first_match. induction patterns as [|p patterns IH]; simpl.
  - split; [discriminate|]. intros ([|? ?] & ? & ? & H & _); discriminate.
  - destruct (re_match p n) eqn:Hp.
    + split; [intros _|reflexivity]. exists [], p, patterns. auto.
    + rewrite IH. split.
      * intros (pre & q & post & -> & Hpre & Hq).
        exists (p :: pre), q, post. auto.
      * intros (pre & q & post & Heq & Hpre & Hq).
        destruct pre as [|p' pre]; simpl in Heq; injection Heq as Hhd Htl.
        -- congruence.
        -- inversion Hpre; subst. exists pre, q, post. auto.
Qed.

Lemma is_dff_spec (dffs : list string) (n : string) :
  is_dff dffs n = true <-> register_like dffs n.
Proof.
  unfold is_dff, register_like.
  rewrite <- in_dff_list_spec, <- matches_pattern_spec.
  destruct (in_dff_list dffs n); simpl; intuition congruence.
Qed.

(** The patterns on some names. *)
Example dff_patterns_examples :
  map (matches_pattern dff_patterns)
      ["data_reg"; "data_reg[7]"; "tx_Q"; "rx_q[0]"; "NextState"; "bit_counter";
       "shifter"; "data_regs"; "clk"; "q"; "a_reg[x]"]
  = [true; true; true; true; true; true; true; false; false; false; false].
Proof. vm_compute. reflexivity. Qed.

(** ** The candidates *)

Lemma collect_candidates_spec (dffs : list string) (sus : list suspicious)
    (acc : list candidate) :
  collect_candidates dffs sus acc =
  (acc ++ map make_candidate
            (List.filter (fun s => is_dff dffs (name s)) sus))%list.
Proof.
  revert acc. induction sus as [|s sus IH]; intros acc; simpl.
  - rewrite app_nil_r. reflexivity.
  - destruct (is_dff dffs (name s)); rewrite IH; [|reflexivity].
    rewrite <- app_assoc. reflexivity.
Qed.

Lemma analyze_trojan_candidates_spec (d : PCTDDetector) :
  trojan_candidates d = [] ->
  trojan_candidates (analyze_trojan_candidates d) =
  sort_by_reverse trojan_probability (encountered d).
Proof.
  intros Hnew. unfold analyze_trojan_candidates. simpl.
  rewrite collect_candidates_spec, Hnew. reflexivity.
Qed.


(** ** The loop of [identify_suspicious_signals] *)

Lemma find_suspicious_spec (threshold avg : Q) (items : list (string * jvalue))
    (acc : list suspicious) :
  Qeq_bool avg 0 = false ->
  find_suspicious threshold avg items acc =
  Ok (acc ++ suspects threshold avg items)%list.
Proof.
  intros Havg. revert acc.
  induction items as [|[n v] items IH]; intros acc; simpl.
  - rewrite app_nil_r. reflexivity.
  - unfold suspects. cbn [omap list_omap]. simpl.
    destruct (below_threshold threshold v) as [count|]; [|apply IH].
    unfold suspect. rewrite Havg. simpl. rewrite IH.
    rewrite <- app_assoc. reflexivity.
Qed.

Lemma below_threshold_spec (threshold : Q) (v : jvalue) (count : Q) :
  below_threshold threshold v = Some count <->
  number v = Some count /\ (0 < count)%Q /\ (count < threshold)%Q.
Proof.
  unfold below_threshold. destruct (number v) as [q|].
  - destruct (Qlt_bool q threshold) eqn:Hlt; destruct (Qlt_bool 0 q) eqn:Hpos;
      simpl; split; try discriminate.
    + intros [= <-]. apply Qlt_bool_iff in Hlt, Hpos. auto.
    + intros ([= <-] & _). reflexivity.
    + intros ([= <-] & Hp & _). apply Qlt_bool_iff in Hp. congruence.
    + intros ([= <-] & _ & Ht). apply Qlt_bool_iff in Ht. congruence.
    + intros ([= <-] & Hp & _). apply Qlt_bool_iff in Hp. congruence.
  - split; [discriminate|]. intros [H _]. discriminate.
Qed.

Lemma suspects_names (threshold avg : Q) (items : list (string * jvalue))
    (n : string) :
  In n (map name (suspects threshold avg items)) <->
  exists v count, In (n, v) items /\ number v = Some count /\
                  (0 < count)%Q /\ (count < threshold)%Q.
Proof.
  induction items as [|[n' v'] items IH].
  - simpl. split; [intros []|]. intros (? & ? & [] & _).
  - unfold suspects in *. cbn [omap list_omap]. simpl.
    destruct (below_threshold threshold v') as [count'|] eqn:Hb.
    + simpl. rewrite IH. apply below_threshold_spec in Hb. split.
      * intros [<- | (v & count & Hin & Hcnt)].
        -- exists v', count'. auto.
        -- exists v, count. auto.
      * intros (v & count & [Heq | Hin] & Hcnt).
        -- left. congruence.
        -- right. exists v, count. auto.
    + rewrite IH. split.
      * intros (v & count & Hin & Hcnt). exists v, count. auto.
      * intros (v & count & [Heq | Hin] & Hcnt).
        -- injection Heq as -> ->.
           apply below_threshold_spec in Hcnt. congruence.
        -- exists v, count. auto.
Qed.

Lemma identify_without_positive_counts (d : PCTDDetector) :
  positive_counts (transition_data d) = [] ->
  identify_suspicious_signals d = Ok d.
Proof.
  intros Hnone. unfold identify_suspicious_signals. rewrite Hnone.
  destruct (transition_data d); reflexivity.
Qed.

(** [identify_suspicious_signals] writes [suspicious_signals] only. *)
Lemma identify_frame (d d' : PCTDDetector) :
  identify_suspicious_signals d = Ok d' ->
  dff_list d' = dff_list d /\ trojan_candidates d' = trojan_candidates d.
Proof.
  unfold identify_suspicious_signals, mbind, result_bind. intros H.
  repeat case_match; try discriminate; injection H as <-; auto.
Qed.

(** ** Risk levels *)

Lemma risk_of_spec (p : Q) :
  (risk_of p = CRITICAL <-> (p < 5)%Q) /\
  (risk_of p = HIGH <-> (5 <= p)%Q /\ (p < 10)%Q) /\
  (risk_of p = MEDIUM <-> (10 <= p)%Q /\ (p < 20)%Q) /\
  (risk_of p = LOW <-> (20 <= p)%Q).
Proof.
  unfold risk_of.
  destruct (Qlt_bool p 5) eqn:H5;
    [apply Qlt_bool_iff in H5 | apply Qlt_bool_false_iff in H5];
  (destruct (Qlt_bool p 10) eqn:H10;
    [apply Qlt_bool_iff in H10 | apply Qlt_bool_false_iff in H10]);
  (destruct (Qlt_bool p 20) eqn:H20;
    [apply Qlt_bool_iff in H20 | apply Qlt_bool_false_iff in H20]);
  repeat split; intros; try discriminate; try reflexivity; lra.
Qed.

Lemma loaded_fields (percentile : Z) (td : list (string * jvalue))
    (dffs : list string) :
  transition_data (loaded percentile td dffs) = td /\
  dff_list (loaded percentile td dffs) = dffs /\
  threshold_percentile (loaded percentile td dffs) = percentile /\
  suspicious_signals (loaded percentile td dffs) = [] /\
  trojan_candidates (loaded percentile td dffs) = [].
Proof.
  unfold loaded, load_transition_data.
  destruct (numbers td); simpl; auto.
Qed.

Lemma run_detection_inv (percentile : Z) (td : list (string * jvalue))
    (dffs : list string) (d : PCTDDetector) :
  run_detection percentile td dffs = Ok d ->
  exists d', identify_suspicious_signals (loaded percentile td dffs) = Ok d' /\
             d = analyze_trojan_candidates d' /\
             dff_list d' = dffs /\ trojan_candidates d' = [].
Proof.
  unfold run_detection, score. fold (loaded percentile td dffs).
  unfold mbind, result_bind.
  destruct (identify_suspicious_signals (loaded percentile td dffs))
    as [d'|e] eqn:Hid; [|discriminate].
  intros [= <-]. exists d'. split; [reflexivity|]. split; [reflexivity|].
  destruct (identify_frame _ _ Hid) as [Hdff Hcand].
  destruct (loaded_fields percentile td dffs) as (_ & Hd & _ & _ & Hc).
  split; congruence.
Qed.

(** C4: the risk level is a function of the percentage of the average
    alone, with upper bounds that are excluded: below 5 is CRITICAL, from
    5 and below 10 is HIGH, from 10 and below 20 is MEDIUM, from 20 on is
    LOW. So exactly 5 is HIGH and exactly 20 is LOW. Every candidate of a
    run carries the level of its own percentage. *)
Theorem risk_level_boundaries :
  (forall p : Q,
      (risk_of p = CRITICAL <-> (p < 5)%Q) /\
      (risk_of p = HIGH <-> (5 <= p)%Q /\ (p < 10)%Q) /\
      (risk_of p = MEDIUM <-> (10 <= p)%Q /\ (p < 20)%Q) /\
      (risk_of p = LOW <-> (20 <= p)%Q)) /\
  (forall p : Q, (p == 5)%Q -> risk_of p = HIGH) /\
  (forall p : Q, (p == 20)%Q -> risk_of p = LOW) /\
  (forall (percentile : Z) (td : list (string * jvalue)) (dffs : list string)
          (d : PCTDDetector),
      run_detection percentile td dffs = Ok d ->
      Forall (fun c => risk_level c = risk_of (cand_percentage_of_avg c))
             (trojan_candidates d)).
Proof.
  split; [exact risk_of_spec|]. split; [|split].
  - intros p Hp. apply (risk_of_spec p). lra.
  - intros p Hp. apply (risk_of_spec p). lra.
  - intros percentile td dffs d Hrun.
    apply run_detection_inv in Hrun as (d' & _ & -> & _ & Hnew).
    rewrite (analyze_trojan_candidates_spec d' Hnew).
    destruct (sort_by_reverse_spec trojan_probability (encountered d'))
      as (_ & Hperm & _).
    apply (Permutation_Forall (Permutation_sym Hperm)).
    unfold encountered. apply List.Forall_forall. intros c Hc.
    apply in_map_iff in Hc as (s & <- & _). reflexivity.
Qed.

(** ** Ranking *)


(** ** Degenerate tables *)

Lemma fold_Qplus_nonneg (l : list Q) (acc : Q) :
  Forall (fun q => (0 <= q)%Q) l -> (acc <= fold_left Qplus l acc)%Q.
Proof.
  revert acc. induction l as [|q l IH]; intros acc Hl; simpl; [lra|].
  inversion Hl as [|? ? Hq Hl']; subst.
  specialize (IH (acc + q)%Q Hl'). lra.
Qed.

Lemma fold_Qplus_positive (l : list Q) (acc : Q) :
  Forall (fun q => (0 <= q)%Q) l ->
  (exists q, In q l /\ (0 < q)%Q) ->
  (0 <= acc)%Q -> (0 < fold_left Qplus l acc)%Q.
Proof.
  revert acc. induction l as [|q l IH]; intros acc Hl (p & Hin & Hp) Hacc.
  - destruct Hin.
  - inversion Hl as [|? ? Hq Hl']; subst. simpl.
    destruct Hin as [-> | Hin].
    + pose proof (fold_Qplus_nonneg l (acc + p)%Q Hl'). lra.
    + apply IH; [assumption|eauto|lra].
Qed.

Lemma numbers_at_least (lo : Q) (td : list (string * jvalue)) :
  counts_at_least lo td -> Forall (fun q => (lo <= q)%Q) (numbers td).
Proof.
  unfold counts_at_least, numbers.
  induction 1 as [|[n v] td Hv Htd IH]; cbn [omap list_omap]; [constructor|].
  simpl in *. destruct (number v) as [q|]; [|exact IH].
  constructor; [auto|exact IH].
Qed.


Lemma positive_counts_In (td : list (string * jvalue)) (q : Q) :
  In q (positive_counts td) <-> In q (numbers td) /\ (0 < q)%Q.
Proof.
  unfold positive_counts. rewrite filter_In, Qlt_bool_iff. reflexivity.
Qed.

(** With counts that are not negative, a positive count makes the
    average positive. *)
Lemma avg_transitions_positive (percentile : Z) (td : list (string * jvalue))
    (dffs : list string) :
  counts_at_least 0 td -> positive_counts td <> [] ->
  exists avg, avg_transitions (loaded percentile td dffs) = Some avg /\
              (0 < avg)%Q.
Proof.
  intros Hnn Hpos. apply numbers_at_least in Hnn.
  destruct (positive_counts td) as [|p ps] eqn:Hp; [congruence|].
  assert (Hin : In p (positive_counts td)) by (rewrite Hp; left; reflexivity).
  apply positive_counts_In in Hin as [Hin Hp0].
  unfold loaded, load_transition_data.
  destruct (numbers td) as [|x rest] eqn:Hnum; [destruct Hin|].
  simpl. eexists. split; [reflexivity|].
  apply Qlt_shift_div_l.
  - unfold Qlt. simpl. lia.
  - rewrite Qmult_0_l. unfold Qsum.
    apply fold_Qplus_positive; [assumption|eauto|lra].
Qed.

Lemma run_detection_without_positive_counts (percentile : Z)
    (td : list (string * jvalue)) (dffs : list string) :
  positive_counts td = [] ->
  exists d, run_detection percentile td dffs = Ok d /\
            suspicious_signals d = [] /\ trojan_candidates d = [].
Proof.
  intros Hnone.
  destruct (loaded_fields percentile td dffs) as (Htd & _ & _ & Hsus & Hcand).
  exists (analyze_trojan_candidates (loaded percentile td dffs)).
  unfold run_detection, score. fold (loaded percentile td dffs).
  rewrite identify_without_positive_counts by (rewrite Htd; exact Hnone).
  split; [reflexivity|]. split.
  - unfold analyze_trojan_candidates, with_trojan_candidates.
    cbn [suspicious_signals]. exact Hsus.
  - rewrite (analyze_trojan_candidates_spec _ Hcand).
    unfold encountered. rewrite Hsus. reflexivity.
Qed.



(** ** The percentile threshold *)

(** Below 100 the index of the code is the clamped index, and it is in
    range. *)
Lemma threshold_index_below_100 (n : nat) (percentile : Z) :
  (0 < n)%nat -> percentile < 100 ->
  threshold_index n percentile = clamped_index n percentile /\
  0 <= threshold_index n percentile < Z.of_nat n.
Proof.
  intros Hn Hp. unfold threshold_index, clamped_index.
  assert (HN : 0 < Z.of_nat n) by lia. revert HN.
  generalize (Z.of_nat n). clear Hn. intros N HN.
  destruct (Z.le_gt_cases 0 percentile) as [Hpos | Hneg].
  - rewrite Z.quot_div_nonneg by nia.
    assert (0 <= N * percentile / 100) by (apply Z.div_pos; nia).
    assert (N * percentile / 100 < N).
    { apply Z.div_lt_upper_bound; nia. }
    lia.
  - assert (Hq : Z.quot (N * percentile) 100 <= 0).
    { replace (N * percentile) with (- (N * - percentile)) by lia.
      rewrite Z.quot_opp_l by lia.
      assert (0 <= Z.quot (N * - percentile) 100)
        by (apply Z.quot_pos; nia).
      lia. }
    assert (N * percentile / 100 < 0).
    { apply Z.div_lt_upper_bound; nia. }
    lia.
Qed.

(** For a percentile below 100 and a table with a positive count: the
    positive counts are sorted in ascending order, the threshold is the
    count at the clamped index, and the suspicious signals are those with
    [0 < count < threshold]. *)
Lemma percentile_threshold (d : PCTDDetector) (counts : list Q) (avg : Q) :
  positive_counts (transition_data d) = counts -> counts <> [] ->
  threshold_percentile d < 100 ->
  avg_transitions d = Some avg -> Qeq_bool avg 0 = false ->
  suspicious_signals d = [] ->
  exists threshold d',
    StronglySorted Qle (sort_by id counts) /\
    Permutation (sort_by id counts) counts /\
    nth_error (sort_by id counts)
      (Z.to_nat (clamped_index (length counts) (threshold_percentile d)))
    = Some threshold /\
    identify_suspicious_signals d = Ok d' /\
    (forall n, In n (map name (suspicious_signals d')) <->
               exists v count, In (n, v) (transition_data d) /\
                               number v = Some count /\
                               (0 < count)%Q /\ (count < threshold)%Q).
Proof.
  intros Hcounts Hne Hp Havg Havg0 Hsus.
  destruct (sort_by_spec id counts) as (Hsorted & Hperm & _).
  pose proof (Permutation_length Hperm) as Hlen.
  assert (Hn : (0 < length counts)%nat).
  { destruct counts; [congruence|]. rewrite length_cons. lia. }
  destruct (threshold_index_below_100 (length counts) _ Hn Hp) as [Hidx Hrange].
  destruct (nth_error (sort_by id counts)
              (Z.to_nat (threshold_index (length counts) (threshold_percentile d))))
    as [threshold|] eqn:Hnth.
  2:{ apply nth_error_None in Hnth. lia. }
  exists threshold.
  exists (with_suspicious_signals
            (sort_by transitions (suspects threshold avg (transition_data d))) d).
  split; [exact Hsorted|]. split; [exact Hperm|].
  split; [rewrite <- Hidx; exact Hnth|].
  unfold identify_suspicious_signals, get_avg_transitions, index.
  rewrite Hcounts, Havg, Hsus.
  destruct (transition_data d) as [|item td] eqn:Htd.
  { exfalso. apply Hne. rewrite <- Hcounts. reflexivity. }
  destruct counts as [|c counts']; [congruence|].
  cbv beta iota zeta. rewrite Hlen, Hnth.
  unfold mbind, result_bind. cbv beta iota.
  rewrite (find_suspicious_spec _ _ _ _ Havg0).
  split; [reflexivity|].
  intros n. cbn [suspicious_signals with_suspicious_signals app].
  rewrite <- suspects_names.
  destruct (sort_by_spec transitions (suspects threshold avg (item :: td)))
    as (_ & Hperm' & _).
  split; apply Permutation_in; [|symmetry]; apply Permutation_map; exact Hperm'.
Qed.

Example threshold_of_counts_1_to_100 :
  threshold_index 100 10 = 10 /\
  nth_error (sort_by id (positive_counts counts_1_to_100)) 10 = Some 11%Q /\
  (map name <$> (suspicious_signals <$>
     match identify_suspicious_signals (loaded 10 counts_1_to_100 []) with
     | Ok d => Some d
     | Raise _ => None
     end))
  = Some (map signal_number (seq 1 10)).
Proof. vm_compute. repeat split; reflexivity. Qed.

(** C3, at an input where the index is not clamped to [N-1]: one
    positive count and the percentile 100. The index of the code is 1,
    past the end of the one-element list, and the scorer raises
    [IndexError]; the clamped index is 0 and would select the count 5 as
    threshold. *)
Theorem threshold_index_not_clamped_above :
  let td := [("a", JNumber 5)] in
  positive_counts td = [5%Q] /\
  threshold_index 1 100 = 1 /\
  clamped_index 1 100 = 0 /\
  index (sort_by id (positive_counts td)) (clamped_index 1 100) = Ok 5%Q /\
  identify_suspicious_signals (loaded 100 td []) = Raise IndexError /\
  run_detection 100 td [] = Raise IndexError.
Proof. vm_compute. repeat split; reflexivity. Qed.

(** ** A candidate above the average *)

(** C10: there is a table without negative counts for which the scorer
    reports a candidate whose trojan probability is negative and whose
    percentage of the average is above 100. In [mostly_idle] the average
    over all fifteen counts is 29/15, the threshold over the ten positive
    counts is 3, and [state_reg] with count 2 is below the threshold and
    above the average. *)
Theorem candidate_above_average_exists :
  exists (td : list (string * jvalue)) (d : PCTDDetector) (c : candidate),
    counts_at_least 0 td /\
    run_detection 10 td [] = Ok d /\
    In c (trojan_candidates d) /\
    (trojan_probability c < 0)%Q /\
    (100 < cand_percentage_of_avg c)%Q.
Proof.
  exists mostly_idle.
  destruct (run_detection 10 mostly_idle []) as [d|e] eqn:Hrun;
    [|vm_compute in Hrun; discriminate Hrun].
  exists d.
  exists {| signal := "state_reg"; cand_transitions := 2;
            cand_percentage_of_avg := 3000 # 29;
            trojan_probability := -100 # 29;
            risk_level := LOW |}.
  split; [|split; [reflexivity|]].
  - unfold counts_at_least, mostly_idle.
    repeat constructor; simpl; intros q [= <-]; vm_compute; discriminate.
  - vm_compute in Hrun. injection Hrun as <-.
    split; [left; reflexivity|]. split; reflexivity.
Qed.

(** ** The theorems at concrete detectors *)



Lemma risk_level_boundaries_witness :
  exists d, run_detection 10 mostly_idle [] = Ok d /\
            Forall (fun c => risk_level c = risk_of (cand_percentage_of_avg c))
                   (trojan_candidates d).
Proof.
  destruct (run_detection 10 mostly_idle []) as [d|e] eqn:Hrun;
    [|vm_compute in Hrun; discriminate Hrun].
  exists d. split; [reflexivity|].
  exact (proj2 (proj2 (proj2 risk_level_boundaries)) 10 mostly_idle [] d Hrun).
Defined.

End ScorerFacts.

(** * Further properties of the decoder *)

Module DecoderExtra.

Import VCD Report DecoderSpec DecoderMore DecoderFacts.

(** Unfolds the body of the loop into its branches. *)
Ltac line_cases :=
  unfold parse_line, parse_timescale, parse_var, parse_timestamp,
    value_change, vector_change, real_change, scalar_change, word_change,
    with_self;
  repeat case_match; simpl in *.

(** ** Lines that are ignored *)

(** Without a line that sets the time the decoder never enters the dump
    section: whatever the lines declare or change, no transition is
    counted, no value is recorded and the simulation time stays 0. *)
Theorem nothing_counted_without_timestamp (lines : list string) :
  Forall no_timestamp lines ->
  transitions (parse_vcd lines) = ∅ /\
  signal_values (parse_vcd lines) = ∅ /\
  simulation_time (parse_vcd lines) = 0.
Proof.
  intros Hlines. unfold parse_vcd.
  assert (Hinv : forall st,
             in_dump_section st = false /\ transitions (self st) = ∅ /\
             signal_values (self st) = ∅ /\ simulation_time (self st) = 0 ->
             let st' := parse_lines st lines in
             in_dump_section st' = false /\ transitions (self st') = ∅ /\
             signal_values (self st') = ∅ /\ simulation_time (self st') = 0).
  { induction Hlines as [|raw lines Hraw _ IH]; intros st Hst; [exact Hst|].
    simpl. apply IH. destruct Hst as (Hdump & Htr & Hsv & Htime).
    unfold no_timestamp in Hraw. unfold parse_line. rewrite Hdump.
    destruct (negb (Py.nonempty (Py.strip raw))); [auto|].
    destruct (Py.startswith (Py.strip raw) "$timescale").
    { unfold parse_timescale. simpl. auto. }
    destruct (Py.startswith (Py.strip raw) "$var").
    { unfold parse_var. repeat case_match; simpl; auto. }
    destruct (Py.startswith (Py.strip raw) "#").
    { unfold parse_timestamp. rewrite (Hraw eq_refl). auto. }
    simpl. auto. }
  apply (Hinv (start init)). simpl. auto.
Qed.

Lemma nothing_counted_without_timestamp_witness :
  transitions (parse_vcd ["$var wire 1 ! a $end"; "0!"; "#zero"; "1!"]) = ∅ /\
  signal_values (parse_vcd ["$var wire 1 ! a $end"; "0!"; "#zero"; "1!"]) = ∅ /\
  simulation_time (parse_vcd ["$var wire 1 ! a $end"; "0!"; "#zero"; "1!"]) = 0.
Proof.
  apply nothing_counted_without_timestamp.
  repeat constructor; unfold no_timestamp; vm_compute; congruence.
Defined.

(** A value change that names a code without declaration leaves the
    whole state as it is, for each of the three shapes of line. *)
Theorem undeclared_code_is_ignored (st : loop_state) (raw : string) :
  (forall (c : ascii) (signal_id : string),
      Py.strip raw = String c signal_id -> signal_id <> "" ->
      Py.char_in c "01xzXZ" = true ->
      signals (self st) !! signal_id = None ->
      parse_line st raw = st) /\
  (forall (marker : ascii) (rest p0 signal_id : string) (more : list string),
      marker = "b"%char \/ marker = "r"%char ->
      Py.strip raw = String marker rest ->
      Py.split (String marker rest) = p0 :: signal_id :: more ->
      signals (self st) !! signal_id = None ->
      parse_line st raw = st).
Proof.
  split.
  - intros c signal_id Hline Hid Hc Hnone.
    destruct (in_dump_section st) eqn:Hdump.
    + rewrite (parse_line_scalar st raw c signal_id) by assumption.
      unfold scalar_change. rewrite Hnone. reflexivity.
    + unfold parse_line. rewrite Hline, Hdump.
      apply char_in_scalar_symbols in Hc.
      destruct Hc as [-> | [-> | [-> | [-> | [-> | ->]]]]]; reflexivity.
  - intros marker rest p0 signal_id more Hm Hline Hsplit Hnone.
    destruct (in_dump_section st) eqn:Hdump.
    + rewrite (parse_line_word st raw rest marker) by assumption.
      unfold word_change. rewrite Hsplit, Hnone. reflexivity.
    + unfold parse_line. rewrite Hline, Hdump.
      destruct Hm as [-> | ->]; reflexivity.
Qed.

Lemma undeclared_code_is_ignored_witness :
  let st := parse_lines (start init) ["$var wire 1 ! a $end"; "#0"] in
  parse_line st "1?" = st /\ parse_line st "b101 ?" = st.
Proof.
  intros st. split.
  - apply (proj1 (undeclared_code_is_ignored st "1?") "1"%char "?");
      [reflexivity | discriminate | reflexivity | vm_compute; reflexivity].
  - apply (proj2 (undeclared_code_is_ignored st "b101 ?") "b"%char "101 ?"
             "b101" "?" []);
      [left; reflexivity | reflexivity | reflexivity | vm_compute; reflexivity].
Defined.

(** ** What the loop keeps *)

Lemma append_value_lookup (sv : gmap string (list (Z * string)))
    (n n' : string) (t : Z) (v : string) :
  default [] (append_value sv n t v !! n') =
  if decide (n = n') then (default [] (sv !! n) ++ [(t, v)])%list
  else default [] (sv !! n').
Proof.
  unfold append_value. rewrite lookup_insert.
  destruct (decide (n = n')) as [->|]; reflexivity.
Qed.

Lemma increment_lookup (tr : gmap string Z) (n n' : string) :
  default 0 (increment tr n !! n') =
  if decide (n = n') then default 0 (tr !! n) + 1 else default 0 (tr !! n').
Proof.
  unfold increment. rewrite lookup_insert.
  destruct (decide (n = n')) as [->|]; reflexivity.
Qed.

Lemma timed_history (st : loop_state) (n : string) (t : Z) (v : string) :
  timed st -> In (t, v) (history_of (self st) n) ->
  t <= simulation_time (self st).
Proof.
  intros (_ & _ & Hh) Hin. unfold history_of in Hin.
  destruct (signal_values (self st) !! n) as [h|] eqn:Hn; [|destruct Hin].
  exact (Hh n h t v Hn Hin).
Qed.

Lemma timed_intro (st : loop_state) :
  0 <= simulation_time (self st) ->
  current_time st <= simulation_time (self st) ->
  (forall n t v, In (t, v) (history_of (self st) n) ->
                 t <= simulation_time (self st)) ->
  timed st.
Proof.
  intros H0 Hc Hh. split; [exact H0|]. split; [exact Hc|].
  intros n h t v Hn Hin. apply (Hh n t v). unfold history_of.
  rewrite Hn. exact Hin.
Qed.

Lemma timed_scalar_change (st : loop_state) (value signal_id : string) :
  timed st -> timed (scalar_change st value signal_id).
Proof.
  intros Hst. pose proof Hst as (H0 & Hc & _). unfold scalar_change.
  destruct (signals (self st) !! signal_id) as [sg|]; [|exact Hst].
  apply timed_intro; simpl; [exact H0 | exact Hc |].
  intros n t v. unfold history_of. simpl. rewrite append_value_lookup.
  destruct (decide (name sg = n)) as [_|_].
  - rewrite in_app_iff. intros [Hin | [[= <- <-] | []]]; [|exact Hc].
    exact (timed_history st _ t v Hst Hin).
  - apply (timed_history st n t v Hst).
Qed.

Lemma timed_word_change (keep : bool) (st : loop_state) (line : string) :
  timed st -> timed (word_change keep st line).
Proof.
  intros Hst. pose proof Hst as (H0 & Hc & _). unfold word_change.
  destruct (Py.split line) as [|p0 [|signal_id more]]; try exact Hst.
  destruct (signals (self st) !! signal_id) as [sg|]; [|exact Hst].
  apply timed_intro; simpl; [exact H0 | exact Hc |].
  intros n t v. unfold history_of. simpl.
  destruct keep; [|apply (timed_history st n t v Hst)].
  rewrite append_value_lookup.
  destruct (decide (name sg = n)) as [_|_].
  - rewrite in_app_iff. intros [Hin | [[= <- <-] | []]]; [|exact Hc].
    exact (timed_history st _ t v Hst Hin).
  - apply (timed_history st n t v Hst).
Qed.

Lemma timed_parse_line (st : loop_state) (raw : string) :
  timed st -> timed (parse_line st raw).
Proof.
  intros Hst. pose proof Hst as (H0 & Hc & Hh). unfold parse_line.
  destruct (negb (Py.nonempty (Py.strip raw))); [exact Hst|].
  destruct (Py.startswith (Py.strip raw) "$timescale"); [exact Hst|].
  destruct (Py.startswith (Py.strip raw) "$var").
  { unfold parse_var, with_self. repeat case_match; exact Hst. }
  destruct (Py.startswith (Py.strip raw) "#").
  { unfold parse_timestamp.
    destruct (Py.int (Py.tail (Py.strip raw))) as [t|]; [|exact Hst].
    split; [simpl; lia|]. split; [simpl; lia|]. simpl.
    intros n h t' v Hn Hin. specialize (Hh n h t' v Hn Hin). lia. }
  destruct (in_dump_section st && negb (Py.startswith (Py.strip raw) "$"));
    [|exact Hst].
  unfold value_change, vector_change, real_change.
  repeat case_match; auto using timed_scalar_change, timed_word_change.
Qed.


(** After a decode the simulation time is not negative, and it is at
    least the time of every value in the history: no value is recorded
    at a time later than the reported simulation time. *)
Theorem history_within_simulation_time (lines : list string) :
  let a := parse_vcd lines in
  0 <= simulation_time a /\
  forall n t v, In (t, v) (history_of a n) -> t <= simulation_time a.
Proof.
  assert (Hinv : forall st, timed st -> timed (parse_lines st lines)).
  { induction lines as [|raw lines IH]; intros st Hst; [exact Hst|].
    simpl. apply IH, timed_parse_line, Hst. }
  assert (Hstart : timed (start init)).
  { split; [simpl; lia|]. split; [simpl; lia|].
    intros n h t v Hn. simpl in Hn. rewrite lookup_empty in Hn. discriminate. }
  specialize (Hinv _ Hstart). intros a. split; [apply Hinv|].
  intros n t v. apply (timed_history _ n t v Hinv).
Qed.

Lemma history_within_simulation_time_witness :
  let a := parse_vcd ["$var wire 1 ! a $end"; "#7"; "1!"; "#3"; "0!"] in
  3 <= simulation_time a.
Proof.
  intros a.
  apply (proj2 (history_within_simulation_time
                  ["$var wire 1 ! a $end"; "#7"; "1!"; "#3"; "0!"]) "a" 3 "0").
  vm_compute. right. left. reflexivity.
Defined.

Lemma extends_refl (st : loop_state) : extends st st.
Proof.
  repeat split; auto; try lia.
  intros n. exists []. rewrite app_nil_r. reflexivity.
Qed.

Lemma extends_trans (st1 st2 st3 : loop_state) :
  extends st1 st2 -> extends st2 st3 -> extends st1 st3.
Proof.
  intros (Hs1 & Hc1 & Hh1 & Ht1 & Hd1) (Hs2 & Hc2 & Hh2 & Ht2 & Hd2).
  repeat split; auto.
  - intros n. specialize (Hc1 n). specialize (Hc2 n). lia.
  - intros n. destruct (Hh1 n) as [m1 H1]. destruct (Hh2 n) as [m2 H2].
    exists (m1 ++ m2)%list. rewrite H2, H1, app_assoc. reflexivity.
  - lia.
Qed.

Lemma extends_change (st : loop_state) (signal_id : string) (sg : signal)
    (v : string) (tr : gmap string Z) (sv : gmap string (list (Z * string))) :
  signals (self st) !! signal_id = Some sg ->
  tr = transitions (self st) \/ tr = increment (transitions (self st)) (name sg) ->
  sv = signal_values (self st) \/
  sv = append_value (signal_values (self st)) (name sg) (current_time st) v ->
  extends st
    (with_self st
       {| signals := <[signal_id := set_last_value sg v]> (signals (self st));
          transitions := tr; signal_values := sv;
          timescale := timescale (self st);
          simulation_time := simulation_time (self st) |}).
Proof.
  intros Hsig Htr Hsv. repeat split; simpl; auto; try lia.
  - intros id' Hid'. rewrite lookup_insert.
    destruct (decide (signal_id = id')); [eauto|exact Hid'].
  - intros n. unfold count_of. simpl. destruct Htr as [-> | ->]; [lia|].
    rewrite increment_lookup. destruct (decide (name sg = n)) as [<-|]; lia.
  - intros n. unfold history_of. simpl. destruct Hsv as [-> | ->].
    + exists []. rewrite app_nil_r. reflexivity.
    + rewrite append_value_lookup. destruct (decide (name sg = n)) as [<-|].
      * eexists. reflexivity.
      * exists []. rewrite app_nil_r. reflexivity.
Qed.

Lemma extends_scalar_change (st : loop_state) (value signal_id : string) :
  extends st (scalar_change st value signal_id).
Proof.
  unfold scalar_change.
  destruct (signals (self st) !! signal_id) as [sg|] eqn:Hsig;
    [|apply extends_refl].
  apply (extends_change st signal_id sg value); [exact Hsig| |auto].
  destruct (_ && _); auto.
Qed.

Lemma extends_word_change (keep : bool) (st : loop_state) (line : string) :
  extends st (word_change keep st line).
Proof.
  unfold word_change.
  destruct (Py.split line) as [|p0 [|signal_id more]]; try apply extends_refl.
  destruct (signals (self st) !! signal_id) as [sg|] eqn:Hsig;
    [|apply extends_refl].
  apply (extends_change st signal_id sg (Py.tail p0)); [exact Hsig| |].
  - destruct (changed _ _); auto.
  - destruct keep; auto.
Qed.

Lemma extends_frame (st st' : loop_state) :
  (forall signal_id, is_Some (signals (self st) !! signal_id) ->
                     is_Some (signals (self st') !! signal_id)) ->
  transitions (self st') = transitions (self st) ->
  signal_values (self st') = signal_values (self st) ->
  simulation_time (self st) <= simulation_time (self st') ->
  (in_dump_section st = true -> in_dump_section st' = true) ->
  extends st st'.
Proof.
  intros Hs Htr Hsv Ht Hd. split; [exact Hs|]. split; [|split; [|auto]].
  - intros n. unfold count_of. rewrite Htr. lia.
  - intros n. unfold history_of. rewrite Hsv. exists [].
    rewrite app_nil_r. reflexivity.
Qed.

Lemma extends_parse_line (st : loop_state) (raw : string) :
  extends st (parse_line st raw).
Proof.
  unfold parse_line.
  destruct (negb (Py.nonempty (Py.strip raw))); [apply extends_refl|].
  destruct (Py.startswith (Py.strip raw) "$timescale").
  { apply extends_frame; simpl; auto. lia. }
  destruct (Py.startswith (Py.strip raw) "$var").
  { unfold parse_var, with_self.
    destruct (Py.split (Py.strip raw))
      as [|k [|var_type [|var_size [|var_id [|var_name more]]]]];
      try (apply extends_frame; simpl; auto; lia).
    apply extends_frame; simpl; auto; [|lia].
    intros id' Hid'. rewrite lookup_insert.
    destruct (decide (var_id = id')); [eauto|exact Hid']. }
  destruct (Py.startswith (Py.strip raw) "#").
  { unfold parse_timestamp.
    destruct (Py.int (Py.tail (Py.strip raw))) as [t|]; [|apply extends_refl].
    apply extends_frame; simpl; auto. lia. }
  destruct (in_dump_section st && negb (Py.startswith (Py.strip raw) "$"));
    [|apply extends_refl].
  unfold value_change, vector_change, real_change.
  repeat case_match;
    auto using extends_refl, extends_scalar_change, extends_word_change.
Qed.

(** Decoding more lines never takes anything back: a declared code stays
    declared, no count decreases, every history is only appended to, the
    simulation time does not decrease and the dump section, once
    entered, is not left. *)
Theorem decoding_only_extends (st : loop_state) (lines : list string) :
  extends st (parse_lines st lines).
Proof.
  revert st. induction lines as [|raw lines IH]; intros st;
    [apply extends_refl|].
  simpl. eapply extends_trans; [apply extends_parse_line|apply IH].
Qed.

(** ** The first value of a signal *)

Lemma var_is_not_timescale (line : string) :
  Py.startswith line "$var" = true -> Py.startswith line "$timescale" = false.
Proof.
  unfold Py.startswith. intros H.
  apply ScorerFacts.prefix_spec in H as [post ->]. reflexivity.
Qed.

Lemma parse_line_var (st : loop_state) (raw k var_type var_size var_id
    var_name : string) (more : list string) :
  Py.startswith (Py.strip raw) "$var" = true ->
  Py.split (Py.strip raw) = k :: var_type :: var_size :: var_id :: var_name :: more ->
  let st' := parse_line st raw in
  signals (self st') !! var_id
  = Some {| name := var_name; type := var_type; size := var_size;
            last_value := None |} /\
  transitions (self st') = transitions (self st) /\
  in_dump_section st' = in_dump_section st.
Proof.
  intros Hvar Hsplit. unfold parse_line.
  rewrite (var_is_not_timescale _ Hvar), Hvar.
  destruct (Py.strip raw) as [|c line] eqn:Hline; [discriminate Hvar|].
  cbn [Py.nonempty negb]. unfold parse_var. rewrite Hsplit. simpl.
  rewrite lookup_insert_eq. auto.
Qed.

(** Lines that do not write the entry of a code leave it as it is. *)
Lemma hash_is_not_command (line : string) :
  Py.startswith line "#" = true ->
  Py.startswith line "$timescale" = false /\ Py.startswith line "$var" = false.
Proof.
  unfold Py.startswith. intros H.
  apply ScorerFacts.prefix_spec in H as [post ->]. split; reflexivity.
Qed.

Lemma other_line_keeps (st : loop_state) (signal_id raw : string) :
  other_line signal_id raw ->
  signals (self (parse_line st raw)) !! signal_id
  = signals (self st) !! signal_id.
Proof.
  intros [H | [H | [[H1 H2] | [[H1 H2] | [(c & id & Hl & Hc & Hid & Hne)
    | (marker & rest & p0 & id & more & Hm & Hl & Hsp & Hne)]]]]].
  - unfold parse_line. rewrite H. reflexivity.
  - destruct (hash_is_not_command _ H) as [Ht Hv].
    unfold parse_line. rewrite Ht, Hv, H.
    destruct (negb (Py.nonempty (Py.strip raw))); [reflexivity|].
    unfold parse_timestamp. destruct (Py.int _); reflexivity.
  - unfold parse_line. rewrite H2, H1.
    destruct (negb (Py.nonempty (Py.strip raw))); [reflexivity|].
    destruct (Py.startswith (Py.strip raw) "$timescale"); [reflexivity|].
    destruct (Py.startswith (Py.strip raw) "#").
    + unfold parse_timestamp. destruct (Py.int _); reflexivity.
    + rewrite andb_false_r. reflexivity.
  - unfold parse_line. rewrite (var_is_not_timescale _ H1), H1.
    destruct (negb (Py.nonempty (Py.strip raw))); [reflexivity|].
    unfold parse_var.
    destruct (Py.split (Py.strip raw))
      as [|k [|t [|s [|var_id [|n more]]]]] eqn:Hsp; try reflexivity.
    simpl. apply lookup_insert_ne. exact (H2 _ _ _ _ _ _ eq_refl).
  - destruct (in_dump_section st) eqn:Hd.
    + rewrite (parse_line_scalar st raw c id) by assumption.
      unfold scalar_change. destruct (signals (self st) !! id); [|reflexivity].
      simpl. apply lookup_insert_ne. exact Hne.
    + unfold parse_line. rewrite Hl, Hd.
      apply char_in_scalar_symbols in Hc.
      destruct Hc as [-> | [-> | [-> | [-> | [-> | ->]]]]]; reflexivity.
  - destruct (in_dump_section st) eqn:Hd.
    + rewrite (parse_line_word st raw rest marker) by assumption.
      unfold word_change. rewrite Hsp.
      destruct (signals (self st) !! id); [|reflexivity].
      simpl. apply lookup_insert_ne. exact Hne.
    + unfold parse_line. rewrite Hl, Hd.
      destruct Hm as [-> | ->]; reflexivity.
Qed.

Lemma other_lines_keep (st : loop_state) (signal_id : string)
    (lines : list string) :
  Forall (other_line signal_id) lines ->
  signals (self (parse_lines st lines)) !! signal_id
  = signals (self st) !! signal_id.
Proof.
  intros Hlines. revert st.
  induction Hlines as [|raw lines Hraw _ IH]; intros st; [reflexivity|].
  simpl. rewrite IH. apply other_line_keeps, Hraw.
Qed.

(** The first value change of a code is never counted, whatever its
    shape and value and wherever it comes: after the declaration of the
    code, also one that declares it again, and after any lines that do
    not write the entry of the code (time stamps, other commands,
    declarations and value changes of other codes), a value change of
    the code leaves every count as it is. The declaration stores no
    value. *)
Theorem first_value_is_not_a_transition (st : loop_state)
    (raw_decl k var_type var_size var_id var_name : string)
    (more between : list string) (raw : string) :
  Py.startswith (Py.strip raw_decl) "$var" = true ->
  Py.split (Py.strip raw_decl)
  = k :: var_type :: var_size :: var_id :: var_name :: more ->
  Forall (other_line var_id) between ->
  (exists c, Py.strip raw = String c var_id /\ var_id <> "" /\
             Py.char_in c "01xzXZ" = true) \/
  (exists marker rest p0 others,
      (marker = "b"%char \/ marker = "r"%char) /\
      Py.strip raw = String marker rest /\
      Py.split (String marker rest) = p0 :: var_id :: others) ->
  let st' := parse_lines (parse_line st raw_decl) between in
  transitions (self (parse_line st' raw)) = transitions (self st').
Proof.
  intros Hvar Hsplit Hbetween Hshape st1.
  destruct (parse_line_var st raw_decl _ _ _ _ _ _ Hvar Hsplit)
    as (Hsig0 & _ & _).
  assert (Hsig : signals (self st1) !! var_id
                 = Some {| name := var_name; type := var_type;
                           size := var_size; last_value := None |}).
  { unfold st1. rewrite (other_lines_keep _ _ _ Hbetween). exact Hsig0. }
  destruct (in_dump_section st1) eqn:Hd1.
  - destruct Hshape as [(c & Hline & Hid & Hc)
                       | (marker & rest & p0 & others & Hm & Hline & Hsp)].
    + rewrite (parse_line_scalar st1 raw c var_id) by assumption.
      rewrite (scalar_change_transitions _ _ _ _ Hsig). reflexivity.
    + rewrite (parse_line_word st1 raw rest marker) by assumption.
      rewrite (word_change_transitions _ _ _ _ _ _ _ Hsp Hsig). reflexivity.
  - destruct Hshape as [(c & Hline & Hid & Hc)
                       | (marker & rest & p0 & others & Hm & Hline & Hsp)].
    + unfold parse_line. rewrite Hline, Hd1.
      apply char_in_scalar_symbols in Hc.
      destruct Hc as [-> | [-> | [-> | [-> | [-> | ->]]]]]; reflexivity.
    + unfold parse_line. rewrite Hline, Hd1.
      destruct Hm as [-> | ->]; reflexivity.
Qed.

Lemma first_value_is_not_a_transition_witness :
  let st' := parse_lines (parse_line (start init) "$var wire 1 ! a $end")
               ["$var wire 1 ? b $end"; "$enddefinitions $end"; "#0"; "1?";
                "#5"; "0?"; "b10 ?"] in
  in_dump_section st' = true /\
  transitions (self st') !! "b" = Some 2 /\
  transitions (self (parse_line st' "1!")) = transitions (self st').
Proof.
  intros st'. split; [reflexivity|]. split; [vm_compute; reflexivity|].
  apply (first_value_is_not_a_transition (start init) "$var wire 1 ! a $end"
           "$var" "wire" "1" "!" "a" ["$end"]
           ["$var wire 1 ? b $end"; "$enddefinitions $end"; "#0"; "1?";
            "#5"; "0?"; "b10 ?"] "1!").
  - reflexivity.
  - reflexivity.
  - repeat (apply List.Forall_cons); try apply List.Forall_nil.
    + right. right. right. left. split; [reflexivity|].
      intros ? ? ? ? ? ? Hsp. vm_compute in Hsp. congruence.
    + right. right. left. split; reflexivity.
    + right. left. reflexivity.
    + right. right. right. right. left. exists "1"%char, "?".
      split; [reflexivity|]. split; [reflexivity|]. split; discriminate.
    + right. left. reflexivity.
    + right. right. right. right. left. exists "0"%char, "?".
      split; [reflexivity|]. split; [reflexivity|]. split; discriminate.
    + right. right. right. right. right.
      exists "b"%char, "10 ?", "b10", "?", [].
      split; [left; reflexivity|]. split; [reflexivity|].
      split; [reflexivity|discriminate].
  - left. exists "1"%char. split; [reflexivity|]. split; [discriminate|].
    reflexivity.
Defined.

(** ** A bound on the counts *)

Lemma sum_from (l : list Z) (acc : Z) :
  fold_left Z.add l acc = acc + sum l.
Proof.
  unfold sum. revert acc. induction l as [|x l IH]; intros acc; simpl; [lia|].
  rewrite (IH (acc + x)), (IH (0 + x)). lia.
Qed.

Lemma sum_cons (x : Z) (l : list Z) : sum (x :: l) = x + sum l.
Proof. unfold sum at 1. simpl. rewrite sum_from. lia. Qed.

Lemma sum_permutation (l l' : list Z) : l ≡ₚ l' -> sum l = sum l'.
Proof.
  induction 1 as [|x l l' _ IH|x y l|l1 l2 l3 _ IH1 _ IH2];
    rewrite ?sum_cons; lia.
Qed.

(** The sum of the counts of a table. *)
Lemma total_insert_fresh (tr : gmap string Z) (n : string) (c : Z) :
  tr !! n = None ->
  sum (map_to_list (<[n := c]> tr)).*2 = c + sum (map_to_list tr).*2.
Proof.
  intros Hn. rewrite <- sum_cons.
  apply sum_permutation.
  change (c :: (map_to_list tr).*2) with (((n, c) :: map_to_list tr).*2).
  apply fmap_Permutation, map_to_list_insert, Hn.
Qed.

Lemma total_increment (tr : gmap string Z) (n : string) :
  sum (map_to_list (increment tr n)).*2 = sum (map_to_list tr).*2 + 1.
Proof.
  unfold increment. destruct (tr !! n) as [c|] eqn:Hn; simpl.
  - rewrite <- (insert_delete_id tr n c Hn) at 2.
    rewrite <- insert_delete_eq.
    rewrite !total_insert_fresh by apply lookup_delete_eq. lia.
  - rewrite total_insert_fresh by exact Hn. lia.
Qed.

Lemma transitions_step (st : loop_state) (raw : string) :
  transitions (self (parse_line st raw)) = transitions (self st) \/
  exists n, transitions (self (parse_line st raw))
            = increment (transitions (self st)) n.
Proof. line_cases; eauto. Qed.

(** A line counts at most one transition: after a decode the counts of
    all signals together do not exceed the number of lines read. *)
Theorem counts_bounded_by_lines (lines : list string) :
  sum (trans_counts (parse_vcd lines)) <= Z.of_nat (length lines).
Proof.
  unfold trans_counts, parse_vcd.
  assert (Hstep : forall st,
             sum (map_to_list (transitions (self (parse_lines st lines)))).*2
             <= sum (map_to_list (transitions (self st))).*2
                + Z.of_nat (length lines)).
  { induction lines as [|raw lines IH]; intros st; [simpl; lia|].
    cbn [parse_lines fold_left]. specialize (IH (parse_line st raw)).
    fold (parse_lines (parse_line st raw) lines).
    rewrite length_cons.
    destruct (transitions_step st raw) as [Heq | [n Heq]]; rewrite Heq in IH.
    - lia.
    - rewrite total_increment in IH. lia. }
  specialize (Hstep (start init)). simpl in Hstep.
  rewrite map_to_list_empty in Hstep. exact Hstep.
Qed.

(** ** Decoding against a tally by hand *)

Lemma rstrip_no_space (s : string) :
  no_space s = true -> Py.rstrip_of Py.is_space s = s.
Proof.
  induction s as [|c s IH]; [reflexivity|].
  cbn [no_space Py.rstrip_of]. intros H.
  apply andb_true_iff in H as [Hc Hs]. apply negb_true_iff in Hc.
  rewrite (IH Hs), Hc. reflexivity.
Qed.

Lemma rstrip_app (x y : string) :
  no_space y = true -> y <> "" ->
  Py.rstrip_of Py.is_space (x ++ y) = x ++ y.
Proof.
  intros Hy Hne. induction x as [|c x IH].
  - apply rstrip_no_space, Hy.
  - rewrite ScorerFacts.append_cons. cbn [Py.rstrip_of]. rewrite IH.
    replace (Py.nonempty (x ++ y)) with true.
    + rewrite andb_false_r. reflexivity.
    + destruct x; [destruct y; [congruence|reflexivity]|reflexivity].
Qed.

Lemma symbol_not_space (c : ascii) :
  symbol c = true -> Py.is_space c = false.
Proof.
  intros H. apply char_in_scalar_symbols in H.
  destruct H as [-> | [-> | [-> | [-> | [-> | ->]]]]]; reflexivity.
Qed.

Lemma strip_scalar_line (c : ascii) (signal_id : string) :
  symbol c = true -> no_space signal_id = true ->
  Py.strip (String c signal_id) = String c signal_id.
Proof.
  intros Hc Hid. unfold Py.strip. cbn [Py.lstrip_of].
  rewrite (symbol_not_space c Hc). apply rstrip_no_space.
  cbn [no_space]. rewrite (symbol_not_space c Hc), Hid. reflexivity.
Qed.

Lemma contains_01_binary (c : ascii) :
  Py.contains "01" (String c "") = binary c.
Proof. destruct c as [[] [] [] [] [] [] [] []]; reflexivity. Qed.

Lemma scalar_test (prev : option ascii) (v : ascii) :
  changed (option_map (fun p => String p "") prev) (String v "")
  && both_binary (option_map (fun p => String p "") prev) (String v "")
  = match prev with
    | Some p => binary p && binary v && negb (Ascii.eqb p v)
    | None => false
    end.
Proof.
  destruct prev as [p|]; [|reflexivity].
  cbn [option_map changed both_binary]. rewrite !contains_01_binary.
  replace (String.eqb (String p "") (String v "")) with (Ascii.eqb p v).
  - destruct (binary p), (binary v), (Ascii.eqb p v); reflexivity.
  - cbn [String.eqb]. destruct (Ascii.eqb p v); reflexivity.
Qed.

(** A sequence of scalar changes on a declared code adds to the count of
    its signal exactly the tally by hand of the sequence: the adjacent
    pairs of different binary symbols, the stored symbol being the one
    before the first. *)
Theorem scalar_changes_match_tally (vs : list ascii) :
  forall (st : loop_state) (signal_id : string) (sg : signal)
         (prev : option ascii),
    in_dump_section st = true ->
    signals (self st) !! signal_id = Some sg ->
    signal_id <> "" -> no_space signal_id = true ->
    last_value sg = option_map (fun p => String p "") prev ->
    Forall (fun v => symbol v = true) vs ->
    count_of (self (parse_lines st (scalar_lines signal_id vs))) (name sg)
    = count_of (self st) (name sg) + scalar_tally prev vs.
Proof.
  induction vs as [|v vs IH]; intros st signal_id sg prev Hdump Hsig Hid Hns
    Hlast Hvs; [simpl; lia|].
  inversion Hvs as [|? ? Hv Hvs']; subst.
  cbn [scalar_lines map parse_lines fold_left scalar_tally].
  fold (scalar_lines signal_id vs).
  fold (parse_lines (parse_line st (String v signal_id))
                    (scalar_lines signal_id vs)).
  pose proof (parse_line_scalar st (String v signal_id) v signal_id Hdump
                (strip_scalar_line v signal_id Hv Hns) Hid Hv) as Hstep.
  set (st1 := parse_line st (String v signal_id)) in *.
  assert (Hsig1 : signals (self st1) !! signal_id
                  = Some (set_last_value sg (String v ""))).
  { rewrite Hstep. apply scalar_change_signals, Hsig. }
  assert (Hdump1 : in_dump_section st1 = true).
  { rewrite Hstep. unfold scalar_change. rewrite Hsig. exact Hdump. }
  pose proof (IH st1 signal_id (set_last_value sg (String v "")) (Some v)
                Hdump1 Hsig1 Hid Hns eq_refl Hvs') as HIH.
  cbn [name set_last_value] in HIH. rewrite HIH. unfold count_of at 1.
  rewrite Hstep, (scalar_change_transitions _ _ _ sg Hsig), Hlast, scalar_test.
  destruct prev as [p|]; [|unfold count_of; lia].
  destruct (binary p && binary v && negb (Ascii.eqb p v)).
  - rewrite lookup_increment. unfold count_of. simpl. lia.
  - unfold count_of. lia.
Qed.

Lemma scalar_changes_match_tally_witness :
  let st := parse_lines (start init) ["$var wire 1 ! a $end"; "#0"] in
  count_of (self (parse_lines st ["0!"; "1!"; "x!"; "1!"; "0!"])) "a"
  = count_of (self st) "a" + 2.
Proof.
  intros st.
  apply (scalar_changes_match_tally
           ["0"; "1"; "x"; "1"; "0"]%char st "!"
           {| name := "a"; type := "wire"; size := "1"; last_value := None |}
           None).
  - reflexivity.
  - vm_compute. reflexivity.
  - discriminate.
  - reflexivity.
  - reflexivity.
  - repeat constructor.
Defined.

Lemma append_assoc (x y z : string) : (x ++ y) ++ z = x ++ (y ++ z).
Proof.
  induction x as [|c x IH]; [reflexivity|].
  rewrite !ScorerFacts.append_cons, IH. reflexivity.
Qed.

Lemma append_nonempty (x y : string) :
  Py.nonempty y = true -> Py.nonempty (x ++ y) = true.
Proof. destruct x; [auto|reflexivity]. Qed.

Lemma append_nil_r (s : string) : s ++ "" = s.
Proof.
  induction s as [|c s IH]; [reflexivity|].
  rewrite ScorerFacts.append_cons, IH. reflexivity.
Qed.

Lemma split_from_no_space (w tok rest : string) :
  no_space w = true ->
  Py.split_from tok (w ++ rest) = Py.split_from (tok ++ w) rest.
Proof.
  revert tok. induction w as [|c w IH]; intros tok Hw.
  - rewrite append_nil_r. reflexivity.
  - cbn [no_space] in Hw. apply andb_true_iff in Hw as [Hc Hw].
    apply negb_true_iff in Hc.
    rewrite ScorerFacts.append_cons. cbn [Py.split_from]. rewrite Hc.
    rewrite (IH _ Hw), append_assoc. reflexivity.
Qed.

Lemma split_token (signal_id : string) :
  no_space signal_id = true -> signal_id <> "" ->
  Py.split_from "" signal_id = [signal_id].
Proof.
  intros Hid Hne. rewrite <- (append_nil_r signal_id) at 1.
  rewrite (split_from_no_space signal_id "" "" Hid).
  rewrite ScorerFacts.append_empty. cbn [Py.split_from].
  destruct signal_id; [congruence|reflexivity].
Qed.

Lemma split_word_line (m : ascii) (v signal_id : string) :
  Py.is_space m = false -> no_space v = true ->
  no_space signal_id = true -> signal_id <> "" ->
  Py.split (String m (v ++ String " " signal_id)) = [String m v; signal_id].
Proof.
  intros Hm Hv Hid Hne. unfold Py.split. cbn [Py.split_from]. rewrite Hm.
  change ("" ++ String m "") with (String m "").
  rewrite (split_from_no_space v _ _ Hv).
  change (String m "" ++ v) with (String m v).
  cbn [Py.split_from Py.nonempty]. change (Py.is_space " ") with true.
  cbn iota. rewrite (split_token signal_id Hid Hne). reflexivity.
Qed.

Lemma strip_word_line (m : ascii) (v signal_id : string) :
  Py.is_space m = false -> no_space signal_id = true -> signal_id <> "" ->
  Py.strip (String m (v ++ String " " signal_id))
  = String m (v ++ String " " signal_id).
Proof.
  intros Hm Hid Hne. unfold Py.strip. cbn [Py.lstrip_of]. rewrite Hm.
  assert (Heq : String m (v ++ String " " signal_id)
                = String m (v ++ " ") ++ signal_id).
  { rewrite ScorerFacts.append_cons, append_assoc. reflexivity. }
  rewrite Heq. apply rstrip_app; assumption.
Qed.

Lemma word_test (last : option string) (v : string) :
  changed last v
  = match last with
    | Some p => if String.eqb p v then false else true
    | None => false
    end.
Proof.
  destruct last as [p|]; [|reflexivity]. simpl.
  destruct (String.eqb p v); reflexivity.
Qed.

(** A sequence of bus changes, or of real changes, on a declared code
    adds to the count of its signal exactly the tally by hand of the
    sequence: the adjacent pairs of different value strings, the stored
    value being the one before the first. *)
Theorem word_changes_match_tally (vs : list string) :
  forall (st : loop_state) (marker : ascii) (signal_id : string) (sg : signal),
    in_dump_section st = true ->
    marker = "b"%char \/ marker = "r"%char ->
    signals (self st) !! signal_id = Some sg ->
    signal_id <> "" -> no_space signal_id = true ->
    Forall (fun v => no_space v = true) vs ->
    count_of (self (parse_lines st (word_lines marker signal_id vs))) (name sg)
    = count_of (self st) (name sg) + word_tally (last_value sg) vs.
Proof.
  induction vs as [|v vs IH]; intros st marker signal_id sg Hdump Hm Hsig Hid
    Hns Hvs; [simpl; lia|].
  inversion Hvs as [|? ? Hv Hvs']; subst.
  cbn [word_lines map parse_lines fold_left word_tally].
  fold (word_lines marker signal_id vs).
  set (line := String marker (v ++ String " " signal_id)).
  fold (parse_lines (parse_line st line) (word_lines marker signal_id vs)).
  assert (Hspace : Py.is_space marker = false)
    by (destruct Hm as [-> | ->]; reflexivity).
  pose proof (split_word_line marker v signal_id Hspace Hv Hns Hid) as Hsplit.
  pose proof (parse_line_word st line (v ++ String " " signal_id) marker Hdump
                Hm (strip_word_line marker v signal_id Hspace Hns Hid)) as Hstep.
  fold line in Hsplit, Hstep.
  set (st1 := parse_line st line) in *.
  assert (Hsig1 : signals (self st1) !! signal_id = Some (set_last_value sg v)).
  { rewrite Hstep.
    apply (word_change_signals _ _ _ (String marker v) signal_id [] sg Hsplit Hsig). }
  assert (Hdump1 : in_dump_section st1 = true).
  { rewrite Hstep. unfold word_change. rewrite Hsplit, Hsig. exact Hdump. }
  pose proof (IH st1 marker signal_id (set_last_value sg v) Hdump1 Hm Hsig1 Hid
                Hns Hvs') as HIH.
  cbn [name last_value set_last_value] in HIH. rewrite HIH.
  unfold count_of at 1.
  rewrite Hstep,
    (word_change_transitions _ _ _ (String marker v) signal_id [] sg Hsplit Hsig).
  cbn [Py.tail]. rewrite word_test.
  destruct (last_value sg) as [p|]; [|unfold count_of; lia].
  destruct (String.eqb p v).
  - unfold count_of. lia.
  - rewrite lookup_increment. unfold count_of. simpl. lia.
Qed.

Lemma word_changes_match_tally_witness :
  let st := parse_lines (start init) ["$var wire 2 ! bus $end"; "#0"] in
  count_of (self (parse_lines st ["b00 !"; "b0x !"; "b0x !"; "b00 !"])) "bus"
  = count_of (self st) "bus" + 2.
Proof.
  intros st.
  apply (word_changes_match_tally ["00"; "0x"; "0x"; "00"] st "b"%char "!"
           {| name := "bus"; type := "wire"; size := "2"; last_value := None |}).
  - reflexivity.
  - left. reflexivity.
  - vm_compute. reflexivity.
  - discriminate.
  - reflexivity.
  - repeat constructor.
Defined.

End DecoderExtra.

(** * Further properties of the scorer *)

Module ScorerExtra.

Import PCTD ScorerSpec ScorerMore ScorerFacts.

(** ** Runs that return *)

Lemma find_suspicious_ok (threshold avg : Q) (items : list (string * jvalue))
    (acc l : list suspicious) :
  find_suspicious threshold avg items acc = Ok l ->
  l = (acc ++ suspects threshold avg items)%list.
Proof.
  revert acc. induction items as [|[n v] items IH]; intros acc; simpl.
  - intros [= <-]. rewrite app_nil_r. reflexivity.
  - unfold suspects. cbn [omap list_omap]. simpl.
    destruct (below_threshold threshold v) as [count|];
      [|apply IH].
    unfold suspect. destruct (Qeq_bool avg 0); [discriminate|].
    simpl. intros H. apply IH in H. rewrite H, <- app_assoc. reflexivity.
Qed.

(** A run that returns: the threshold it used, and the lists it leaves. *)
Lemma run_detection_ok (percentile : Z) (td : list (string * jvalue))
    (dffs : list string) (d : PCTDDetector) :
  run_detection percentile td dffs = Ok d ->
  positive_counts td <> [] ->
  exists threshold avg,
    nth_error (sort_by id (positive_counts td))
      (Z.to_nat (threshold_index (length (positive_counts td)) percentile))
    = Some threshold /\
    avg_transitions (loaded percentile td dffs) = Some avg /\
    suspicious_signals d = sort_by transitions (suspects threshold avg td) /\
    trojan_candidates d
    = sort_by_reverse trojan_probability
        (map make_candidate
           (List.filter (fun s => is_dff dffs (name s)) (suspicious_signals d))).
Proof.
  intros Hrun Hpos.
  apply run_detection_inv in Hrun as (d' & Hid & -> & Hdffs & Hnew).
  destruct (loaded_fields percentile td dffs) as (Htd & _ & Hp & Hsus & _).
  unfold identify_suspicious_signals, get_avg_transitions, index in Hid.
  rewrite Htd, Hp, Hsus in Hid.
  destruct td as [|item td']; [exfalso; apply Hpos; reflexivity|].
  destruct (positive_counts (item :: td')) as [|c cs] eqn:Hc; [congruence|].
  cbv beta iota zeta in Hid.
  destruct (sort_by_spec id (c :: cs)) as (_ & Hperm & _).
  rewrite (Permutation_length Hperm) in Hid.
  destruct (nth_error _ _) as [threshold|] eqn:Hnth; [|discriminate].
  destruct (avg_transitions (loaded percentile (item :: td') dffs))
    as [avg|] eqn:Havg; [|discriminate].
  unfold mbind, result_bind in Hid. cbv beta iota in Hid.
  destruct (find_suspicious threshold avg (item :: td') [])
    as [found|] eqn:Hfound; [|discriminate].
  apply find_suspicious_ok in Hfound. cbn [app] in Hfound. subst found.
  injection Hid as <-. exists threshold, avg.
  split; [reflexivity|]. split; [reflexivity|]. split; [reflexivity|].
  rewrite (analyze_trojan_candidates_spec _ Hnew). unfold encountered.
  cbn [dff_list suspicious_signals with_suspicious_signals
       analyze_trojan_candidates with_trojan_candidates].
  rewrite <- Hdffs. reflexivity.
Qed.

Lemma run_detection_returns (percentile : Z) (td : list (string * jvalue))
    (dffs : list string) :
  counts_at_least 0 td -> percentile < 100 ->
  exists d, run_detection percentile td dffs = Ok d.
Proof.
  intros Hnn Hp.
  destruct (positive_counts td) as [|c cs] eqn:Hc.
  { destruct (run_detection_without_positive_counts percentile td dffs Hc)
      as (d & Hd & _). eauto. }
  destruct (avg_transitions_positive percentile td dffs Hnn) as (avg & Havg & H0);
    [congruence|].
  destruct (loaded_fields percentile td dffs) as (Htd & _ & Hperc & Hsus & _).
  assert (Havg0 : Qeq_bool avg 0 = false).
  { destruct (Qeq_bool avg 0) eqn:Heq; [|reflexivity].
    apply Qeq_bool_iff in Heq. lra. }
  destruct (percentile_threshold (loaded percentile td dffs) (c :: cs) avg)
    as (threshold & d' & _ & _ & _ & Hid & _);
    [rewrite Htd; exact Hc | congruence | rewrite Hperc; exact Hp
     | exact Havg | exact Havg0 | exact Hsus |].
  exists (analyze_trojan_candidates d').
  unfold run_detection, score. fold (loaded percentile td dffs).
  rewrite Hid. reflexivity.
Qed.




(** ** How many signals are flagged *)

Lemma suspects_length (threshold avg : Q) (td : list (string * jvalue)) :
  length (suspects threshold avg td)
  = length (List.filter (fun q => Qlt_bool q threshold) (positive_counts td)).
Proof.
  unfold suspects, positive_counts, numbers.
  induction td as [|[n v] td IH]; [reflexivity|].
  cbn [omap list_omap]. unfold below_threshold at 1. simpl.
  destruct (number v) as [q|]; [|exact IH].
  cbn [List.filter].
  destruct (Qlt_bool 0 q) eqn:H0; destruct (Qlt_bool q threshold) eqn:Ht;
    simpl; rewrite ?H0, ?Ht; simpl; rewrite ?Ht; simpl; rewrite ?IH;
    reflexivity.
Qed.

Lemma filter_length_permutation {A} (f : A -> bool) (l l' : list A) :
  l ≡ₚ l' -> length (List.filter f l) = length (List.filter f l').
Proof.
  induction 1 as [|x l l' _ IH|x y l|l1 l2 l3 _ IH1 _ IH2]; simpl.
  - reflexivity.
  - destruct (f x); simpl; congruence.
  - destruct (f x), (f y); reflexivity.
  - congruence.
Qed.

Lemma filter_length_le {A} (f : A -> bool) (l : list A) :
  (length (List.filter f l) <= length l)%nat.
Proof.
  induction l as [|x l IH]; simpl; [lia|]. destruct (f x); simpl; lia.
Qed.

(** In a sorted list, the elements below the one at index [i] are among
    the first [i]. *)
Lemma sorted_below_bound (l : list Q) (i : nat) (threshold : Q) :
  StronglySorted Qle l -> nth_error l i = Some threshold ->
  (length (List.filter (fun x => Qlt_bool x threshold) l) <= i)%nat.
Proof.
  intros Hl. revert i. induction Hl as [|x l Hl IH Hx]; intros i Hi.
  - destruct i; discriminate.
  - destruct i as [|i]; simpl in Hi.
    + injection Hi as ->. cbn [List.filter].
      replace (Qlt_bool threshold threshold) with false.
      2:{ symmetry. apply Qlt_bool_false_iff. lra. }
      replace (List.filter (fun x => Qlt_bool x threshold) l) with (@nil Q);
        [simpl; lia|].
      symmetry. clear IH Hl. induction Hx as [|y l Hy Hx IH]; [reflexivity|].
      cbn [List.filter]. replace (Qlt_bool y threshold) with false; [exact IH|].
      symmetry. apply Qlt_bool_false_iff. exact Hy.
    + specialize (IH i Hi). cbn [List.filter].
      destruct (Qlt_bool x threshold); simpl; lia.
Qed.

Lemma length_sort {A} (le : A -> A -> bool) (l : list A) :
  length (sort le l) = length l.
Proof. apply Permutation_length, sort_permutation. Qed.

(** The scorer flags at most the share of the percentile: the number of
    suspicious signals does not exceed the threshold index
    [max(0, int(N * P / 100))], where [N] is the number of positive
    counts, and there are no more candidates than suspicious signals. In
    particular, when [N * P < 100] (fewer than ten positive counts at
    the percentile 10) nothing is flagged. *)
Theorem flagged_at_most_percentile (percentile : Z)
    (td : list (string * jvalue)) (dffs : list string) (d : PCTDDetector) :
  run_detection percentile td dffs = Ok d ->
  let N := length (positive_counts td) in
  Z.of_nat (length (suspicious_signals d)) <= threshold_index N percentile /\
  (length (trojan_candidates d) <= length (suspicious_signals d))%nat /\
  (Z.of_nat N * percentile < 100 ->
   suspicious_signals d = [] /\ trojan_candidates d = []).
Proof.
  intros Hrun N.
  assert (Hmain :
    Z.of_nat (length (suspicious_signals d)) <= threshold_index N percentile /\
    (length (trojan_candidates d) <= length (suspicious_signals d))%nat).
  { destruct (positive_counts td) as [|c cs] eqn:Hc.
    - destruct (run_detection_without_positive_counts percentile td dffs Hc)
        as (d0 & Hd0 & Hs0 & Hc0).
      rewrite Hrun in Hd0. injection Hd0 as <-. rewrite Hs0, Hc0.
      unfold threshold_index. simpl. lia.
    - destruct (run_detection_ok percentile td dffs d Hrun)
        as (threshold & avg & Hnth & _ & Hsus & Hcand); [congruence|].
      split.
      + rewrite Hsus. unfold sort_by at 1. rewrite length_sort, suspects_length.
        destruct (sort_by_spec id (positive_counts td)) as (Hsorted & Hperm & _).
        rewrite <- (filter_length_permutation _ _ _ Hperm).
        pose proof (sorted_below_bound _ _ _ Hsorted Hnth) as Hbound.
        assert (0 <= threshold_index (length (positive_counts td)) percentile)
          by (unfold threshold_index; lia).
        subst N. rewrite <- Hc. lia.
      + rewrite Hcand. unfold sort_by_reverse. rewrite length_sort, length_map.
        apply filter_length_le. }
  destruct Hmain as [Hs Hc]. split; [exact Hs|]. split; [exact Hc|].
  intros Hsmall.
  assert (Hidx : threshold_index N percentile = 0).
  { unfold threshold_index.
    destruct (Z.le_gt_cases 0 (Z.of_nat N * percentile)) as [Hpos|Hneg].
    - rewrite Z.quot_small by lia. reflexivity.
    - assert (Z.quot (Z.of_nat N * percentile) 100 <= 0).
      { replace (Z.of_nat N * percentile)
          with (- (- (Z.of_nat N * percentile))) by lia.
        rewrite Z.quot_opp_l by lia.
        assert (0 <= Z.quot (- (Z.of_nat N * percentile)) 100)
          by (apply Z.quot_pos; lia).
        lia. }
      lia. }
  rewrite Hidx in Hs.
  assert (Hnil : suspicious_signals d = [])
    by (destruct (suspicious_signals d); [reflexivity|simpl in Hs; lia]).
  split; [exact Hnil|].
  rewrite Hnil in Hc. destruct (trojan_candidates d); [reflexivity|simpl in Hc; lia].
Qed.

Lemma flagged_at_most_percentile_witness :
  exists d, run_detection 10 mostly_idle [] = Ok d /\
            Z.of_nat (length (suspicious_signals d)) <= 1.
Proof.
  destruct (run_detection 10 mostly_idle []) as [d|e] eqn:Hrun;
    [|vm_compute in Hrun; discriminate Hrun].
  exists d. split; [reflexivity|].
  exact (proj1 (flagged_at_most_percentile 10 mostly_idle [] d Hrun)).
Defined.

(** ** The fields of a candidate *)

Lemma suspects_well_formed (threshold avg : Q) (td : list (string * jvalue)) :
  Forall (well_formed threshold avg) (suspects threshold avg td).
Proof.
  unfold suspects. induction td as [|[n v] td IH]; [constructor|].
  cbn [omap list_omap]. simpl.
  destruct (below_threshold threshold v) as [count|] eqn:Hb; [|exact IH].
  constructor; [|exact IH].
  apply below_threshold_spec in Hb as (_ & H0 & Ht).
  repeat split; assumption.
Qed.


Lemma ratio_monotone (t1 t2 avg : Q) :
  (t1 <= t2)%Q -> (0 < avg)%Q -> (t1 / avg <= t2 / avg)%Q.
Proof.
  intros Ht Havg. unfold Qdiv. apply Qmult_le_compat_r; [exact Ht|].
  apply Qinv_le_0_compat. lra.
Qed.

(** The candidates of a run, as records made from well-formed
    suspicious signals. *)
Lemma candidates_of_run (percentile : Z) (td : list (string * jvalue))
    (dffs : list string) (d : PCTDDetector) :
  run_detection percentile td dffs = Ok d ->
  trojan_candidates d = [] \/
  exists threshold avg,
    avg_transitions (loaded percentile td dffs) = Some avg /\
    positive_counts td <> [] /\
    Forall (well_formed threshold avg) (suspicious_signals d) /\
    StronglySorted (fun a b => (transitions a <= transitions b)%Q)
                   (suspicious_signals d) /\
    trojan_candidates d
    = sort_by_reverse trojan_probability
        (map make_candidate
           (List.filter (fun s => is_dff dffs (name s)) (suspicious_signals d))).
Proof.
  intros Hrun. destruct (positive_counts td) as [|c cs] eqn:Hc.
  - left.
    destruct (run_detection_without_positive_counts percentile td dffs Hc)
      as (d0 & Hd0 & _ & Hc0).
    rewrite Hrun in Hd0. injection Hd0 as <-. exact Hc0.
  - right.
    destruct (run_detection_ok percentile td dffs d Hrun)
      as (threshold & avg & _ & Havg & Hsus & Hcand); [congruence|].
    exists threshold, avg. split; [exact Havg|]. split; [congruence|].
    destruct (sort_by_spec transitions (suspects threshold avg td))
      as (Hsorted & Hperm & _).
    rewrite Hsus. split; [|split; [exact Hsorted|]].
    + apply (Permutation_Forall (Permutation_sym Hperm)).
      apply suspects_well_formed.
    + rewrite <- Hsus. exact Hcand.
Qed.



(** ** The order of the candidates *)

Lemma sort_of_sorted {A} (le : A -> A -> bool) (l : list A) :
  StronglySorted (fun a b => le a b = true) l -> sort le l = l.
Proof.
  induction 1 as [|x l Hl IH Hx]; [reflexivity|].
  cbn [sort]. rewrite IH. destruct l as [|y l]; [reflexivity|].
  cbn [insert]. inversion Hx as [|? ? Hxy _]; subst. rewrite Hxy. reflexivity.
Qed.

Lemma sorted_map_filter {A B} (R : A -> A -> Prop) (S : B -> B -> Prop)
    (g : A -> B) (f : A -> bool) (l : list A) :
  StronglySorted R l ->
  (forall a b, In a l -> In b l -> R a b -> S (g a) (g b)) ->
  StronglySorted S (map g (List.filter f l)).
Proof.
  induction 1 as [|x l Hl IH Hx]; intros HRS; [constructor|].
  cbn [List.filter]. assert (Htail : StronglySorted S (map g (List.filter f l))).
  { apply IH. intros a b Ha Hb. apply HRS; right; assumption. }
  destruct (f x); [|exact Htail].
  cbn [map]. constructor; [exact Htail|].
  apply List.Forall_forall. intros c Hc.
  apply in_map_iff in Hc as (b & <- & Hb). apply filter_In in Hb as [Hb _].
  apply HRS; [left; reflexivity | right; exact Hb |].
  rewrite List.Forall_forall in Hx. apply Hx, Hb.
Qed.

(** When the table has no negative count, the final sort by descending
    probability changes nothing: the candidates are the register-like
    suspicious signals in the order of the suspicious list, which is the
    ascending order of the transition counts. *)
Theorem candidates_in_ascending_count_order (percentile : Z)
    (td : list (string * jvalue)) (dffs : list string) (d : PCTDDetector) :
  counts_at_least 0 td ->
  run_detection percentile td dffs = Ok d ->
  trojan_candidates d
  = map make_candidate
        (List.filter (fun s => is_dff dffs (name s)) (suspicious_signals d)) /\
  StronglySorted (fun a b => (cand_transitions a <= cand_transitions b)%Q)
                 (trojan_candidates d).
Proof.
  intros Hnn Hrun.
  destruct (candidates_of_run percentile td dffs d Hrun)
    as [Hnil | (threshold & avg & Havg & Hpos & Hwf & Hsorted & Hcand)].
  - destruct (run_detection_inv _ _ _ _ Hrun) as (d' & _ & -> & Hdffs & Hnew).
    rewrite (analyze_trojan_candidates_spec d' Hnew) in Hnil |- *.
    unfold encountered in *. rewrite Hdffs in *.
    cbn [suspicious_signals analyze_trojan_candidates with_trojan_candidates].
    assert (Hlen : length (sort_by_reverse trojan_probability
                     (map make_candidate
                        (List.filter (fun s => is_dff dffs (name s))
                           (suspicious_signals d')))) = 0%nat)
      by (rewrite Hnil; reflexivity).
    unfold sort_by_reverse in Hlen. rewrite length_sort in Hlen.
    destruct (map make_candidate _); [|discriminate Hlen].
    split; [reflexivity|constructor].
  - destruct (avg_transitions_positive percentile td dffs Hnn Hpos)
      as (avg' & Havg' & Ha).
    rewrite Havg in Havg'. injection Havg' as <-.
    rewrite List.Forall_forall in Hwf.
    assert (Hid : sort_by_reverse trojan_probability
                    (map make_candidate
                       (List.filter (fun s => is_dff dffs (name s))
                          (suspicious_signals d)))
                  = map make_candidate
                      (List.filter (fun s => is_dff dffs (name s))
                         (suspicious_signals d))).
    { unfold sort_by_reverse. apply sort_of_sorted.
      apply (sorted_map_filter _ _ _ _ _ Hsorted).
      intros a b Hina Hinb Hab.
      destruct (Hwf a Hina) as (_ & _ & Hsa & _).
      destruct (Hwf b Hinb) as (_ & _ & Hsb & _).
      apply Qle_bool_iff. simpl. rewrite Hsa, Hsb.
      pose proof (ratio_monotone _ _ avg Hab Ha). lra. }
    rewrite Hcand, Hid. split; [reflexivity|].
    apply (sorted_map_filter _ _ _ _ _ Hsorted). intros a b _ _ Hab. exact Hab.
Qed.

Lemma candidates_in_ascending_count_order_witness :
  exists d, run_detection 10 mostly_idle [] = Ok d /\
            trojan_candidates d
            = map make_candidate
                (List.filter (fun s => is_dff [] (name s)) (suspicious_signals d)).
Proof.
  destruct (run_detection 10 mostly_idle []) as [d|e] eqn:Hrun;
    [|vm_compute in Hrun; discriminate Hrun].
  exists d. split; [reflexivity|].
  apply (candidates_in_ascending_count_order 10 mostly_idle [] d); [|exact Hrun].
  unfold counts_at_least, mostly_idle.
  repeat constructor; simpl; intros q [= <-]; vm_compute; discriminate.
Defined.

(** ** The statistics of [load_transition_data] *)








(** ** The report *)

(** [generate_report] needs the average. On a table without a numeric
    value, the empty table included, the scorer returns and then the
    report raises [AttributeError]: the complete pipeline fails where the
    scorer alone does not. On a table with a numeric value the report is
    written whenever the scorer returns, and its rows are the candidate
    list. *)
Theorem report_needs_a_numeric_value (percentile : Z)
    (td : list (string * jvalue)) (dffs : list string) :
  (numbers td = [] ->
   (exists d, run_detection percentile td dffs = Ok d) /\
   Pipeline.run_detection_and_report percentile td dffs = Raise AttributeError) /\
  (numbers td <> [] ->
   forall d, run_detection percentile td dffs = Ok d ->
             exists r, Pipeline.run_detection_and_report percentile td dffs
                       = Ok (d, r) /\
                       Pipeline.rows r = trojan_candidates d /\
                       Pipeline.candidates_found r = length (trojan_candidates d)).
Proof.
  assert (Havg : forall d, run_detection percentile td dffs = Ok d ->
             avg_transitions d = avg_transitions (loaded percentile td dffs)).
  { intros d Hrun. apply run_detection_inv in Hrun as (d' & Hid & -> & _).
    unfold identify_suspicious_signals, mbind, result_bind in Hid.
    repeat case_match; try discriminate; injection Hid as <-; reflexivity. }
  split.
  - intros Hnone.
    assert (Hpos : positive_counts td = [])
      by (unfold positive_counts; rewrite Hnone; reflexivity).
    destruct (run_detection_without_positive_counts percentile td dffs Hpos)
      as (d & Hrun & _).
    split; [eauto|].
    unfold Pipeline.run_detection_and_report. rewrite Hrun.
    unfold mbind, result_bind, Pipeline.generate_report, get_avg_transitions.
    rewrite (Havg d Hrun). unfold loaded, load_transition_data.
    rewrite Hnone. reflexivity.
  - intros Hsome d Hrun.
    unfold Pipeline.run_detection_and_report. rewrite Hrun.
    unfold mbind, result_bind, Pipeline.generate_report, get_avg_transitions.
    rewrite (Havg d Hrun). unfold loaded, load_transition_data.
    destruct (numbers td) as [|x rest]; [congruence|]. simpl.
    eexists. split; [reflexivity|]. simpl. auto.
Qed.

Lemma report_needs_a_numeric_value_witness :
  (exists d, run_detection 10 [] [] = Ok d) /\
  Pipeline.run_detection_and_report 10 [] [] = Raise AttributeError.
Proof.
  apply (proj1 (report_needs_a_numeric_value 10 [] [])). reflexivity.
Defined.

(** ** The JSON document *)

(** Both shapes of the document give the same table: an object whose
    key [transition_counts] holds the table, and the table itself when
    it has no such key. A table of the old shape with a signal named
    [transition_counts] is not read as a table: its value for that name
    is taken instead, and a number there raises [TypeError]. *)
Theorem both_document_shapes (d : PCTDDetector)
    (items table : list (string * Pipeline.json)) :
  (Pipeline.get "transition_counts" items = Some (Pipeline.Object table) ->
   Pipeline.get "transition_counts" table = None ->
   Pipeline.load_document (Pipeline.Object items) d
   = Pipeline.load_document (Pipeline.Object table) d /\
   Pipeline.load_document (Pipeline.Object table) d
   = inl (load_transition_data
            (map (fun item => (item.1, Pipeline.to_jvalue item.2)) table) d)) /\
  (forall q, Pipeline.get "transition_counts" table = Some (Pipeline.Number q) ->
             Pipeline.load_document (Pipeline.Object table) d
             = inr Pipeline.TypeError).
Proof.
  unfold Pipeline.load_document. split.
  - intros Hnew Hold. cbn [Pipeline.select]. rewrite Hnew, Hold.
    split; reflexivity.
  - intros q Hq. cbn [Pipeline.select]. rewrite Hq. reflexivity.
Qed.

Lemma both_document_shapes_witness :
  let table := [("clk", Pipeline.Number 40); ("state_reg", Pipeline.Number 2)] in
  Pipeline.load_document
    (Pipeline.Object [("frequencies", Pipeline.Object []);
                      ("transition_counts", Pipeline.Object table)]) init
  = Pipeline.load_document (Pipeline.Object table) init /\
  Pipeline.load_document (Pipeline.Object table) init
  = inl (load_transition_data
           (map (fun item => (item.1, Pipeline.to_jvalue item.2)) table) init).
Proof.
  intros table.
  apply (proj1 (both_document_shapes init
                  [("frequencies", Pipeline.Object []);
                   ("transition_counts", Pipeline.Object table)] table));
    reflexivity.
Defined.

(** ** The hint set of [parse_verilog] *)

Lemma listed_spec (sig : string) (l : list string) :
  Pipeline.listed sig l = true <-> In sig l.
Proof.
  unfold Pipeline.listed. rewrite existsb_exists. split.
  - intros (x & Hx & Heq). apply String.eqb_eq in Heq. congruence.
  - intros Hin. exists sig. split; [exact Hin|apply String.eqb_refl].
Qed.

Lemma nonempty_spec (s : string) : Py.nonempty s = true <-> s <> "".
Proof. destruct s; simpl; split; congruence. Qed.

Lemma add_assigned_spec (assigned : list (string * string)) (l : list string) :
  NoDup l -> ~ In "" l ->
  let l' := Pipeline.add_assigned assigned l in
  NoDup l' /\ ~ In "" l' /\ (exists more, l' = (l ++ more)%list) /\
  (forall sig, In sig l' <->
               In sig l \/
               (sig <> "" /\ exists t, In t assigned /\
                                       Pipeline.first_group t = sig)).
Proof.
  revert l. induction assigned as [|t assigned IH]; intros l Hnd Hne.
  - simpl. split; [exact Hnd|]. split; [exact Hne|].
    split; [exists []; rewrite app_nil_r; reflexivity|].
    intros sig. split; [auto|]. intros [H | (_ & t & [] & _)]. exact H.
  - cbn [Pipeline.add_assigned].
    destruct (Py.nonempty (Pipeline.first_group t)
              && negb (Pipeline.listed (Pipeline.first_group t) l)) eqn:Hadd.
    + apply andb_true_iff in Hadd as [Hnon Hnew].
      apply nonempty_spec in Hnon. apply negb_true_iff in Hnew.
      assert (Hnot : ~ In (Pipeline.first_group t) l).
      { intros Hin. apply listed_spec in Hin. congruence. }
      destruct (IH (l ++ [Pipeline.first_group t])%list)
        as (Hnd' & Hne' & (more & Hmore) & Hin').
      { apply NoDup_app. split; [exact Hnd|]. split.
        - intros x Hx Hx'. apply list_elem_of_In in Hx.
          apply list_elem_of_singleton in Hx'. subst x. exact (Hnot Hx).
        - apply NoDup_singleton. }
      { rewrite in_app_iff. intros [H | [H | []]]; [exact (Hne H)|].
        apply Hnon. exact H. }
      split; [exact Hnd'|]. split; [exact Hne'|]. split.
      * exists (Pipeline.first_group t :: more). rewrite Hmore, <- app_assoc.
        reflexivity.
      * intros sig. rewrite Hin', in_app_iff. simpl. split.
        -- intros [[H | [<- | []]] | (Hs & t' & Ht' & Heq)].
           { left. exact H. }
           { right. split; [exact Hnon|]. exists t. auto. }
           { right. split; [exact Hs|]. exists t'. auto. }
        -- intros [H | (Hs & t' & [<- | Ht'] & Heq)].
           { left. left. exact H. }
           { left. right. left. exact Heq. }
           { right. split; [exact Hs|]. exists t'. auto. }
    + destruct (IH l Hnd Hne) as (Hnd' & Hne' & Hpre & Hin').
      split; [exact Hnd'|]. split; [exact Hne'|]. split; [exact Hpre|].
      intros sig. rewrite Hin'. split.
      * intros [H | (Hs & t' & Ht' & Heq)].
        { left. exact H. }
        { right. split; [exact Hs|]. exists t'. simpl. auto. }
      * intros [H | (Hs & t' & [<- | Ht'] & Heq)].
        { left. exact H. }
        { left. apply andb_false_iff in Hadd as [Hempty | Hold].
          - exfalso. apply Hs. rewrite <- Heq.
            destruct (Pipeline.first_group t); [reflexivity|discriminate].
          - apply negb_false_iff, listed_spec in Hold. congruence. }
        { right. split; [exact Hs|]. exists t'. auto. }
Qed.

(** The hint set that [parse_verilog] builds from the assignments of
    the clocked blocks has no duplicate and never the empty name, and it
    keeps the names it already had in their place. It holds exactly the
    non-empty names that are assigned in a block. The empty name matters:
    as a hint it would make every signal register-like. *)
Theorem hint_set_without_duplicates (blocks : list (list (string * string))) :
  let dffs := Pipeline.add_blocks blocks [] in
  NoDup dffs /\ ~ In "" dffs /\
  (forall sig, In sig dffs <->
               sig <> "" /\ exists block t, In block blocks /\ In t block /\
                                            Pipeline.first_group t = sig) /\
  (forall (hints : list string) (n : string),
      In "" hints -> is_dff hints n = true).
Proof.
  assert (Hgen : forall l, NoDup l -> ~ In "" l ->
            let l' := Pipeline.add_blocks blocks l in
            NoDup l' /\ ~ In "" l' /\
            (forall sig, In sig l' <->
               In sig l \/
               (sig <> "" /\ exists block t, In block blocks /\ In t block /\
                                             Pipeline.first_group t = sig))).
  { unfold Pipeline.add_blocks.
    induction blocks as [|block blocks IH]; intros l Hnd Hne.
    - simpl. split; [exact Hnd|]. split; [exact Hne|].
      intros sig. split; [auto|]. intros [H | (_ & b & t & [] & _)]. exact H.
    - cbn [fold_left].
      destruct (add_assigned_spec block l Hnd Hne) as (Hnd1 & Hne1 & _ & Hin1).
      destruct (IH _ Hnd1 Hne1) as (Hnd2 & Hne2 & Hin2).
      split; [exact Hnd2|]. split; [exact Hne2|].
      intros sig. rewrite Hin2, Hin1. split.
      + intros [[H | (Hs & t & Ht & Heq)] | (Hs & b & t & Hb & Ht & Heq)].
        * auto.
        * right. split; [exact Hs|]. exists block, t. simpl. auto.
        * right. split; [exact Hs|]. exists b, t. simpl. auto.
      + intros [H | (Hs & b & t & [<- | Hb] & Ht & Heq)]; eauto 10. }
  intros dffs. subst dffs.
  destruct (Hgen [] (NoDup_nil_2)) as (Hnd & Hne & Hin); [auto|].
  split; [exact Hnd|]. split; [exact Hne|]. split.
  - intros sig. rewrite Hin. split; [intros [[] | H]; exact H | auto].
  - intros hints n Hempty. apply is_dff_spec. left.
    exists "". split; [exact Hempty|]. left. exists "", n. reflexivity.
Qed.

Lemma hint_set_without_duplicates_witness :
  is_dff ["data"; ""] "clk" = true.
Proof.
  apply (proj2 (proj2 (proj2 (hint_set_without_duplicates [])))).
  right. left. reflexivity.
Defined.

End ScorerExtra.

(** * Properties of the statistics and of the whole pipeline *)

Module StatisticsExtra.

Import VCD Report Statistics DecoderSpec DecoderMore DecoderFacts DecoderExtra.
Import ScorerMore.

(** ** Frequencies *)

Lemma report_Qlt_bool_iff (x y : Q) :
  Report.Qlt_bool x y = true <-> (x < y)%Q.
Proof. apply ScorerFacts.Qlt_bool_iff. Qed.


Lemma frequency_lookup (a : VCDAnalyzer) (n : string) (f : Q) :
  calculate_frequencies a !! n = Some f ->
  exists count, transitions a !! n = Some count /\
    f = if Report.Qlt_bool 0 (inject_Z (simulation_time a) * time_multiplier a)
        then (inject_Z count
              / (inject_Z (simulation_time a) * time_multiplier a))%Q
        else 0%Q.
Proof.
  unfold calculate_frequencies. rewrite lookup_fmap_Some.
  intros (count & <- & Hn). eauto.
Qed.







(** ** The low-activity section of the report *)

Lemma max_or_0_upper (l : list Z) (y : Z) : In y l -> y <= max_or_0 l.
Proof.
  destruct l as [|x l]; [intros []|]. simpl.
  revert x. induction l as [|z l IH]; intros x Hin.
  - destruct Hin as [-> | []]. simpl. lia.
  - simpl. destruct Hin as [-> | [-> | Hin]].
    + pose proof (fold_max_bound l (Z.max y z)). lia.
    + pose proof (fold_max_bound l (Z.max x y)). lia.
    + apply IH. right. exact Hin.
Qed.

Lemma sum_upper (l : list Z) (m : Z) :
  (forall y, In y l -> y <= m) -> sum l <= Z.of_nat (length l) * m.
Proof.
  induction l as [|x l IH]; intros Hm; [reflexivity|].
  rewrite sum_cons, length_cons.
  pose proof (Hm x (or_introl eq_refl)).
  specialize (IH (fun y Hy => Hm y (or_intror Hy))). lia.
Qed.

(** A signal of the low-activity list is a DFF signal of the report,
    listed with its count, and ten times its count is less than the
    largest count of a DFF signal: the most active DFF signal is never
    listed, whatever the trace. *)
Theorem low_activity_list_spares_the_busiest (a : VCDAnalyzer)
    (s : string) (c : Z) :
  In (s, c) (low_activity_dffs a) ->
  In s (dff_names a) /\ c = default 0 (transitions a !! s) /\
  10 * c < max_or_0 (dff_counts a).
Proof.
  unfold low_activity_dffs. intros Hin.
  destruct (dff_names a) as [|n0 names] eqn:Hnames; [destruct Hin|].
  apply filter_In in Hin as [Hin Hlow]. simpl in Hlow.
  change (((fun s0 => (s0, default 0 (transitions a !! s0))) <$> n0 :: names))
    with (map (fun s0 => (s0, default 0 (transitions a !! s0))) (n0 :: names))
    in Hin.
  apply in_map_iff in Hin as (s' & [= -> ->] & Hs).
  split; [exact Hs|]. split; [reflexivity|].
  apply report_Qlt_bool_iff in Hlow. unfold low_activity_threshold in Hlow.
  assert (Hcounts : dff_counts a
                    = map (fun s0 => default 0 (transitions a !! s0)) (n0 :: names)).
  { unfold dff_counts. rewrite Hnames. reflexivity. }
  set (counts := dff_counts a) in *.
  assert (Hlen : (0 < inject_Z (Z.of_nat (length counts)))%Q).
  { rewrite Hcounts. unfold Qlt. simpl. lia. }
  assert (Havg : (inject_Z (sum counts) / inject_Z (Z.of_nat (length counts))
                  <= inject_Z (max_or_0 counts))%Q).
  { apply Qle_shift_div_r; [exact Hlen|].
    rewrite <- inject_Z_mult, <- Zle_Qle, Z.mul_comm.
    apply sum_upper. intros y. apply max_or_0_upper. }
  assert (Hq : (inject_Z (10 * c) < inject_Z (max_or_0 counts))%Q).
  { rewrite inject_Z_mult. change (inject_Z 10) with 10%Q.
    set (avg := (inject_Z (sum counts)
                 / inject_Z (Z.of_nat (length counts)))%Q) in *.
    lra. }
  rewrite <- Zlt_Qlt in Hq. exact Hq.
Qed.

Lemma low_activity_list_spares_the_busiest_witness :
  let a := {| signals := ∅;
              transitions := <["a_reg" := 1]> (<["b_reg" := 30]> ∅);
              signal_values := ∅; timescale := "1ns";
              simulation_time := 10 |} in
  In "a_reg" (dff_names a) /\ 1 = default 0 (transitions a !! "a_reg") /\
  10 * 1 < max_or_0 (dff_counts a).
Proof.
  intros a. apply (low_activity_list_spares_the_busiest a "a_reg" 1).
  vm_compute. left. reflexivity.
Defined.

(** ** The two classifiers *)

Lemma re_match_star (k : PCTD.char_class) (p : list PCTD.atom) (s : string) :
  PCTD.re_match (PCTD.Star k :: p) s
  = PCTD.re_match p s
    || match s with
       | String c s' => PCTD.class_match k c && PCTD.re_match (PCTD.Star k :: p) s'
       | EmptyString => false
       end.
Proof. destruct s; reflexivity. Qed.

Lemma re_match_opt (k : PCTD.char_class) (p : list PCTD.atom) (s : string) :
  PCTD.re_match (PCTD.Opt k :: p) s
  = PCTD.re_match p s
    || match s with
       | String c s' => PCTD.class_match k c && PCTD.re_match p s'
       | EmptyString => false
       end.
Proof. destruct s; reflexivity. Qed.

Lemma re_match_star_mono (k : PCTD.char_class) (p q : list PCTD.atom) :
  (forall s, PCTD.re_match p s = true -> PCTD.re_match q s = true) ->
  forall s, PCTD.re_match (PCTD.Star k :: p) s = true ->
            PCTD.re_match (PCTD.Star k :: q) s = true.
Proof.
  intros Hpq s. induction s as [|c s IH]; intros H;
    rewrite (re_match_star k p) in H; rewrite (re_match_star k q).
  - rewrite orb_false_r in *. apply Hpq, H.
  - apply orb_true_iff in H as [H | H]; [rewrite (Hpq _ H); reflexivity|].
    apply andb_true_iff in H as [Hc H]. rewrite Hc, (IH H). apply orb_true_r.
Qed.

Lemma re_match_one_mono (k : PCTD.char_class) (p q : list PCTD.atom) :
  (forall s, PCTD.re_match p s = true -> PCTD.re_match q s = true) ->
  forall s, PCTD.re_match (PCTD.One k :: p) s = true ->
            PCTD.re_match (PCTD.One k :: q) s = true.
Proof.
  intros Hpq [|c s]; cbn [PCTD.re_match]; [auto|].
  rewrite !andb_true_iff. intros [Hc H]. auto.
Qed.

(** The end of the name alone is also an end after an optional index. *)
Lemma end_is_optional_index_end (s : string) :
  PCTD.re_match [PCTD.EndOfString] s = true ->
  PCTD.re_match [PCTD.Opt (PCTD.Chr "["); PCTD.Star PCTD.Digit;
                 PCTD.Opt (PCTD.Chr "]"); PCTD.EndOfString] s = true.
Proof.
  intros H.
  assert (Hclose : PCTD.re_match [PCTD.Opt (PCTD.Chr "]"); PCTD.EndOfString] s
                   = true).
  { rewrite re_match_opt, H. reflexivity. }
  assert (Hdigits : PCTD.re_match [PCTD.Star PCTD.Digit;
                                   PCTD.Opt (PCTD.Chr "]"); PCTD.EndOfString] s
                    = true).
  { rewrite re_match_star, Hclose. reflexivity. }
  rewrite re_match_opt, Hdigits. reflexivity.
Qed.

Lemma matches_pattern_intro (patterns : list (list PCTD.atom))
    (p : list PCTD.atom) (n : string) :
  In p patterns -> PCTD.re_match p n = true ->
  PCTD.matches_pattern patterns n = true.
Proof.
  induction patterns as [|q patterns IH]; [intros []|].
  intros [-> | Hin] Hp; simpl.
  - rewrite Hp. reflexivity.
  - destruct (PCTD.re_match q n); [reflexivity|auto].
Qed.

(** A name that the decoder's classifier accepts through one of these
    six patterns is register-like for the scorer too, with any hint
    set. The other five patterns of the decoder ([_reg[...]] with an
    index that is not a number, [dff], [cntr], [_ff] and [q[...]]) have
    no counterpart: [a_reg[x]], accepted by the decoder, is rejected by
    the scorer without hints. *)
Theorem scorer_covers_decoder_patterns :
  (forall (p : list PCTD.atom) (n : string) (dffs : list string),
      In p covered_patterns -> PCTD.re_match p n = true ->
      PCTD.is_dff dffs n = true) /\
  Statistics.is_dff_name "a_reg[x]" = true /\
  PCTD.is_dff [] "a_reg[x]" = false.
Proof.
  split; [|split; vm_compute; reflexivity].
  intros p n dffs Hp Hmatch.
  assert (Hpat : PCTD.matches_pattern PCTD.dff_patterns n = true).
  { destruct Hp as [<- | [<- | [<- | [<- | [<- | [<- | []]]]]]].
    - apply (matches_pattern_intro _
               (PCTD.Star PCTD.AnyChar :: PCTD.lit "_q" ++
                [PCTD.Opt (PCTD.Chr "["); PCTD.Star PCTD.Digit;
                 PCTD.Opt (PCTD.Chr "]"); PCTD.EndOfString])%list);
        [right; left; reflexivity|].
      revert Hmatch.
      change (PCTD.re_match
                (PCTD.Star PCTD.AnyChar :: PCTD.lit "_q" ++ [PCTD.EndOfString]) n
              = true -> PCTD.re_match
                (PCTD.Star PCTD.AnyChar :: PCTD.lit "_q" ++
                 [PCTD.Opt (PCTD.Chr "["); PCTD.Star PCTD.Digit;
                  PCTD.Opt (PCTD.Chr "]"); PCTD.EndOfString])%list n = true).
      apply re_match_star_mono. intros s.
      apply re_match_one_mono. intros s'. apply re_match_one_mono.
      apply end_is_optional_index_end.
    - apply (matches_pattern_intro _
               (PCTD.Star PCTD.AnyChar :: PCTD.lit "_q" ++
                [PCTD.Opt (PCTD.Chr "["); PCTD.Star PCTD.Digit;
                 PCTD.Opt (PCTD.Chr "]"); PCTD.EndOfString])%list);
        [right; left; reflexivity|].
      revert Hmatch. apply re_match_star_mono. intros s.
      apply re_match_one_mono. intros s'. apply re_match_one_mono.
      apply end_is_optional_index_end.
    - apply (matches_pattern_intro _
               (PCTD.Star PCTD.AnyChar :: PCTD.lit "_reg" ++
                [PCTD.Opt (PCTD.Chr "["); PCTD.Star PCTD.Digit;
                 PCTD.Opt (PCTD.Chr "]"); PCTD.EndOfString])%list);
        [left; reflexivity|].
      revert Hmatch. apply re_match_star_mono. intros s.
      apply re_match_one_mono. intros s1. apply re_match_one_mono. intros s2.
      apply re_match_one_mono. intros s3. apply re_match_one_mono.
      apply end_is_optional_index_end.
    - apply (matches_pattern_intro _
               (PCTD.Star PCTD.AnyChar :: PCTD.lit "state"
                ++ [PCTD.Star PCTD.AnyChar])%list);
        [right; right; left; reflexivity|exact Hmatch].
    - apply (matches_pattern_intro _
               (PCTD.Star PCTD.AnyChar :: PCTD.lit "count"
                ++ [PCTD.Star PCTD.AnyChar])%list);
        [right; right; right; left; reflexivity|exact Hmatch].
    - apply (matches_pattern_intro _
               (PCTD.Star PCTD.AnyChar :: PCTD.lit "shift"
                ++ [PCTD.Star PCTD.AnyChar])%list);
        [right; right; right; right; left; reflexivity|exact Hmatch]. }
  unfold PCTD.is_dff. destruct (PCTD.in_dff_list dffs n); [reflexivity|].
  simpl. exact Hpat.
Qed.

Lemma scorer_covers_decoder_patterns_witness :
  PCTD.is_dff ["tx"] "Bit_Count" = true.
Proof.
  apply (proj1 scorer_covers_decoder_patterns
           (PCTD.Star PCTD.AnyChar :: PCTD.lit "Count"
            ++ [PCTD.Star PCTD.AnyChar])%list).
  - vm_compute. right. right. right. right. left. reflexivity.
  - vm_compute. reflexivity.
Defined.

(** ** From the decoder to the scorer *)

Lemma listing_items (td : list (string * PCTD.jvalue)) (m : gmap string Z) :
  listing td m ->
  forall k v, In (k, v) td ->
              exists c, m !! k = Some c /\ v = PCTD.JNumber (inject_Z c).
Proof.
  intros [Hnd Hmap] k v Hin.
  apply list_elem_of_In in Hin.
  apply (elem_of_list_to_map_1 _ _ _ Hnd) in Hin.
  rewrite Hmap in Hin. apply lookup_fmap_Some in Hin as (c & <- & Hc). eauto.
Qed.

Lemma listing_counts (td : list (string * PCTD.jvalue)) (m : gmap string Z) :
  listing td m -> counted m -> ScorerSpec.counts_at_least 1 td.
Proof.
  intros Hl Hm. unfold ScorerSpec.counts_at_least. apply List.Forall_forall.
  intros [k v] Hin q Hq.
  destruct (listing_items td m Hl k v Hin) as (c & Hc & ->).
  simpl in Hq. injection Hq as <-.
  specialize (Hm k c Hc). simpl in Hm.
  change 1%Q with (inject_Z 1). rewrite <- Zle_Qle. exact Hm.
Qed.

Lemma dff_data_counted (lines : list string) :
  counted (transition_counts (dff_data (parse_vcd lines))).
Proof.
  intros s c Hs. unfold dff_data in Hs. cbn [transition_counts] in Hs.
  rewrite map_lookup_imap in Hs.
  destruct (identify_dff_signals (calculate_frequencies (parse_vcd lines)) !! s)
    as [f|] eqn:Hf; [|discriminate]. simpl in Hs. injection Hs as <-.
  unfold identify_dff_signals in Hf.
  apply map_lookup_filter_Some in Hf as [Hf _].
  apply frequency_lookup in Hf as (count & Hcount & _).
  rewrite Hcount. simpl. exact (counted_parse_vcd lines s count Hcount).
Qed.

(** The tables that [save_json] writes after a decode, the one of all
    signals and the one of the DFF signals, hold only counts that are at
    least 1. Read back in any order and scored with a percentile below
    100, either of them makes the scorer return: no exception is raised
    on the output of the decoder. *)
Theorem scorer_accepts_decoder_output (lines : list string)
    (td : list (string * PCTD.jvalue)) (dffs : list string) (percentile : Z) :
  listing td (transition_counts (all_data (parse_vcd lines))) \/
  listing td (transition_counts (dff_data (parse_vcd lines))) ->
  percentile < 100 ->
  ScorerSpec.counts_at_least 1 td /\
  exists d, PCTD.run_detection percentile td dffs = PCTD.Ok d.
Proof.
  intros Hl Hp.
  assert (H1 : ScorerSpec.counts_at_least 1 td).
  { destruct Hl as [Hl | Hl].
    - apply (listing_counts _ _ Hl). apply counted_parse_vcd.
    - apply (listing_counts _ _ Hl). apply dff_data_counted. }
  split; [exact H1|].
  apply ScorerExtra.run_detection_returns; [|exact Hp].
  unfold ScorerSpec.counts_at_least in *.
  eapply Forall_impl; [exact H1|]. intros item Hitem q Hq.
  specialize (Hitem q Hq). lra.
Qed.

Lemma scorer_accepts_decoder_output_witness :
  exists d, PCTD.run_detection 10 [("a", PCTD.JNumber 1)] [] = PCTD.Ok d.
Proof.
  apply (scorer_accepts_decoder_output
           ["$var wire 1 ! a $end"; "#0"; "0!"; "#5"; "1!"]
           [("a", PCTD.JNumber 1)] [] 10); [|reflexivity].
  left. split.
  - repeat constructor. simpl. intros H. inversion H.
  - apply map_eq. intros k. vm_compute. reflexivity.
Defined.

End StatisticsExtra.
